(** * run_and_plot.py: index lookup, process runner, output loader, plotter

    A shallow embedding of [run_and_plot.py].  Pure functions of the script
    are Rocq functions; the parts that touch files, the clock, the child
    process and the logger are written in a small state-and-exception monad
    over an explicit [world]. *)

From Stdlib Require Import String Ascii List ZArith QArith Qround Uint63 Floats Lia.
From stdpp Require Import gmap strings list pretty.

Local Open Scope string_scope.
Local Open Scope list_scope.

(** ** Data model *)

(** [class SimulationOutputTypeEnum(Enum)]: a single member. *)
Inductive SimulationOutputTypeEnum := TRAJECTORY.

(** The value carried by each enum member. *)
Definition enum_value (t : SimulationOutputTypeEnum) : string :=
  match t with TRAJECTORY => "trajectory" end.

(** [class Simulation(BaseModel)]. *)
Record Simulation := mkSimulation {
  simulation_id : string;
  name : string;
  entrypoint : string;
  output_type : SimulationOutputTypeEnum;
  output_path : string;
  dimensions : Z;
  description : string
}.

(** [class SimulationIndex(BaseModel)]. *)
Record SimulationIndex := mkSimulationIndex {
  simulations : list Simulation
}.

(** [SimulationIndex.get_simulation]: the [for] loop returns from inside at
    the first match and falls off the end (Python's implicit [None])
    otherwise. *)
Fixpoint get_simulation_loop (sims : list Simulation) (query : string)
  : option Simulation :=
  match sims with
  | [] => None
  | simulation :: rest =>
      if String.eqb (simulation_id simulation) query
      then Some simulation
      else get_simulation_loop rest query
  end.

Definition get_simulation (self : SimulationIndex) (query : string)
  : option Simulation :=
  get_simulation_loop (simulations self) query.


(** ** Exceptions and results *)

(** The exceptions the script and the library calls it makes can raise. *)
Inductive exception :=
| FileNotFoundError (path : string)
| JSONDecodeError
| TypeError
| ValidationError
| ValueError (msg : string)
| CalledProcessError (returncode : Z) (cmd : list string)
| CsvParseError
| ColumnNotFoundError (column : string)
| DuplicateError
| IndexError.

Inductive result (X : Type) :=
| Ok (x : X)
| Raise (e : exception).
Arguments Ok {X} x.
Arguments Raise {X} e.

Definition result_bind {X Y} (r : result X) (k : X -> result Y) : result Y :=
  match r with
  | Ok x => k x
  | Raise e => Raise e
  end.

#[export] Instance result_mbind : MBind result := fun X Y k r => result_bind r k.
#[export] Instance result_mret : MRet result := fun X x => Ok x.

Definition raised {X} (r : result X) : Prop :=
  match r with Ok _ => False | Raise _ => True end.

(** ** Decoded JSON documents *)

#[local] Set Warnings "-register-all".

(** What [json.load] returns: Python values built from [None], [bool], [int],
    [float], [str], [list] and [dict] with string keys.  A dict is kept as its
    list of items; [dict_get] is the lookup [d[k]]. *)
Inductive pyval :=
| PNone
| PBool (b : bool)
| PInt (z : Z)
| PFloat (q : Q)
| PStr (s : string)
| PList (l : list pyval)
| PDict (items : list (string * pyval)).

Fixpoint dict_get (k : string) (items : list (string * pyval)) : option pyval :=
  match items with
  | [] => None
  | (k', v) :: rest => if String.eqb k' k then Some v else dict_get k rest
  end.

(** ** Validation of the pydantic models *)

(** [Annotated[str, StringConstraints(min_length=n)]]; a plain [str] field is
    [min_length = 0].  The argument is [None] when the key is absent: every
    field of both models is required. *)
Definition validate_str (min_length : nat) (v : option pyval) : result string :=
  match v with
  | Some (PStr s) =>
      if (min_length <=? String.length s)%nat then Ok s
      else Raise ValidationError
  | _ => Raise ValidationError
  end.

(** [output_type: SimulationOutputTypeEnum]: the input must be the value of
    a member. *)
Definition validate_output_type (v : option pyval)
  : result SimulationOutputTypeEnum :=
  match v with
  | Some (PStr s) =>
      match List.find (fun m => String.eqb (enum_value m) s) [TRAJECTORY] with
      | Some m => Ok m
      | None => Raise ValidationError
      end
  | _ => Raise ValidationError
  end.

(** [dimensions: int].  An [int] is taken as it is; what pydantic makes of any
    other input is [lax] (a parameter: the conversion table is pydantic's). *)
Definition validate_int (lax : pyval -> option Z) (v : option pyval) : result Z :=
  match v with
  | Some (PInt z) => Ok z
  | Some other =>
      match lax other with
      | Some z => Ok z
      | None => Raise ValidationError
      end
  | None => Raise ValidationError
  end.

(** One element of [simulations]: a dict read through the field names, the
    first through its alias [id].  Keys that name no field are ignored. *)
Definition validate_Simulation (lax : pyval -> option Z) (v : pyval)
  : result Simulation :=
  match v with
  | PDict items =>
      simulation_id ← validate_str 1 (dict_get "id" items);
      name ← validate_str 1 (dict_get "name" items);
      entrypoint ← validate_str 1 (dict_get "entrypoint" items);
      output_type ← validate_output_type (dict_get "output_type" items);
      output_path ← validate_str 1 (dict_get "output_path" items);
      dimensions ← validate_int lax (dict_get "dimensions" items);
      description ← validate_str 0 (dict_get "description" items);
      Ok (mkSimulation simulation_id name entrypoint output_type output_path
            dimensions description)
  | _ => Raise ValidationError
  end.

Fixpoint validate_list (lax : pyval -> option Z) (l : list pyval)
  : result (list Simulation) :=
  match l with
  | [] => Ok []
  | v :: rest =>
      s ← validate_Simulation lax v;
      ss ← validate_list lax rest;
      Ok (s :: ss)
  end.

(** The constructor of [SimulationIndex] called on the unpacked dict: the
    keyword arguments are the items of the dict. *)
Definition validate_SimulationIndex (lax : pyval -> option Z)
    (kwargs : list (string * pyval)) : result SimulationIndex :=
  match dict_get "simulations" kwargs with
  | Some (PList l) =>
      ss ← validate_list lax l;
      Ok (mkSimulationIndex ss)
  | _ => Raise ValidationError
  end.

(** The document a well-formed [index.json] decodes to when it holds the
    descriptors [sims], each object with its seven fields and [id] for
    [simulation_id]. *)
Definition Simulation_to_json (s : Simulation) : pyval :=
  PDict [ ("id", PStr (simulation_id s));
          ("name", PStr (name s));
          ("entrypoint", PStr (entrypoint s));
          ("output_type", PStr (enum_value (output_type s)));
          ("output_path", PStr (output_path s));
          ("dimensions", PInt (dimensions s));
          ("description", PStr (description s)) ].

Definition index_to_json (sims : list Simulation) : pyval :=
  PDict [ ("simulations", PList (map Simulation_to_json sims)) ].

(** ** Numbers *)

(** The arithmetic [plot_trajectory] does on the cells of a column, as an
    interface: the scalar operations, the constants [2.0] and [0.5],
    [np.array] on a list of scalars (which converts them to one type and
    keeps their number), and [np.isfinite]. *)
Class Numeric (A : Type) := {
  num_add : A -> A -> A;
  num_sub : A -> A -> A;
  num_mul : A -> A -> A;
  num_div : A -> A -> A;
  num_maximum : A -> A -> A;
  num_minimum : A -> A -> A;
  num_two : A;
  num_half : A;
  num_array : list A -> list A;
  num_is_finite : A -> bool;
  num_array_length : forall l, length (num_array l) = length l
}.

(** A NumPy scalar as [to_numpy] yields it from a numeric column: an
    [int64] (an integer column) or a [float64] (a float column). *)
Inductive npval :=
| NInt (z : Z)
| NFloat (f : float).

(** [int64] arithmetic wraps around. *)
Definition wrap_int64 (z : Z) : Z := ((z + 2 ^ 63) mod 2 ^ 64 - 2 ^ 63)%Z.

(** The conversion of an [int64] to [float64], rounding to nearest. *)
Definition float_of_int64 (z : Z) : float :=
  let magnitude := Z.abs z in
  let f := if (magnitude =? 2 ^ 63)%Z then 9223372036854775808%float
           else PrimFloat.of_uint63 (Uint63.of_Z magnitude) in
  if (z <? 0)%Z then PrimFloat.opp f else f.

Definition np_float (v : npval) : float :=
  match v with
  | NInt z => float_of_int64 z
  | NFloat f => f
  end.

(** [np.maximum] and [np.minimum] on floats: a NaN operand is the result. *)
Definition float_maximum (a b : float) : float :=
  if PrimFloat.is_nan a then a
  else if PrimFloat.is_nan b then b
  else if PrimFloat.ltb a b then b else a.

Definition float_minimum (a b : float) : float :=
  if PrimFloat.is_nan a then a
  else if PrimFloat.is_nan b then b
  else if PrimFloat.ltb b a then b else a.

(** A binary operation of NumPy: on two [int64] in [int64], otherwise in
    [float64] after converting the integer operand. *)
Definition np_binary (on_int : Z -> Z -> Z) (on_float : float -> float -> float)
    (a b : npval) : npval :=
  match a, b with
  | NInt x, NInt y => NInt (wrap_int64 (on_int x y))
  | _, _ => NFloat (on_float (np_float a) (np_float b))
  end.

(** True division always gives a [float64]. *)
Definition np_true_divide (a b : npval) : npval :=
  NFloat (PrimFloat.div (np_float a) (np_float b)).

Definition np_is_int (v : npval) : bool :=
  match v with NInt _ => true | NFloat _ => false end.

(** [np.array] of scalars: [int64] when all are, otherwise [float64]. *)
Definition np_array (l : list npval) : list npval :=
  if forallb np_is_int l then l else map (fun v => NFloat (np_float v)) l.

Definition np_isfinite (v : npval) : bool :=
  match v with
  | NInt _ => true
  | NFloat f => PrimFloat.is_finite f
  end.

Lemma np_array_length (l : list npval) : length (np_array l) = length l.
Proof. unfold np_array. destruct (forallb np_is_int l); [done | apply length_map]. Qed.

#[export] Instance Numeric_npval : Numeric npval := {
  num_add := np_binary Z.add PrimFloat.add;
  num_sub := np_binary Z.sub PrimFloat.sub;
  num_mul := np_binary Z.mul PrimFloat.mul;
  num_div := np_true_divide;
  num_maximum := np_binary Z.max float_maximum;
  num_minimum := np_binary Z.min float_minimum;
  num_two := NFloat 2%float;
  num_half := NFloat 0.5%float;
  num_array := np_array;
  num_is_finite := np_isfinite;
  num_array_length := np_array_length
}.

(** ** Paths *)

(** [pathlib.Path] on POSIX.  A path keeps the segments it was built from;
    they are joined as [posixpath.join] does and then split into a root and
    the list of parts. *)
Definition Path := list string.

Definition is_sep (c : ascii) : bool := Ascii.eqb c "/".

Definition starts_with_sep (s : string) : bool :=
  match s with
  | String c _ => is_sep c
  | EmptyString => false
  end.

Fixpoint ends_with_sep (s : string) : bool :=
  match s with
  | EmptyString => false
  | String c EmptyString => is_sep c
  | String _ rest => ends_with_sep rest
  end.

(** One step of [posixpath.join]: an absolute segment replaces what came
    before it. *)
Definition posix_join2 (path b : string) : string :=
  if starts_with_sep b then b
  else if String.eqb path "" || ends_with_sep path then path +:+ b
  else path +:+ "/" +:+ b.

Definition posix_join (segments : list string) : string :=
  match segments with
  | [] => ""
  | a :: p => fold_left posix_join2 p a
  end.

(** [splitroot]: one leading slash or three and more give the root ["/"],
    exactly two give ["//"]. *)
Definition splitroot (p : string) : string * string :=
  match p with
  | String c1 r1 =>
      if is_sep c1 then
        match r1 with
        | String c2 r2 =>
            if is_sep c2 then
              match r2 with
              | String c3 _ => if is_sep c3 then ("/", r1) else ("//", r2)
              | EmptyString => ("//", r2)
              end
            else ("/", r1)
        | EmptyString => ("/", r1)
        end
      else ("", p)
  | EmptyString => ("", p)
  end.

(** [str.split("/")]. *)
Fixpoint split_sep (s : string) : list string :=
  match s with
  | EmptyString => [""]
  | String c rest =>
      if is_sep c then "" :: split_sep rest
      else match split_sep rest with
           | seg :: segs => String c seg :: segs
           | [] => [String c ""]
           end
  end.

Definition keep_part (x : string) : bool :=
  negb (String.eqb x "") && negb (String.eqb x ".").

(** The root and the parts of a path. *)
Definition path_parse (p : Path) : string * list string :=
  let '(root, rel) := splitroot (posix_join p) in
  (root, filter (fun x => keep_part x = true) (split_sep rel)).

Definition join_parts (parts : list string) : string :=
  match parts with
  | [] => ""
  | x :: rest => fold_left (fun acc y => acc +:+ "/" +:+ y) rest x
  end.

(** [str(path)]. *)
Definition path_str (p : Path) : string :=
  let '(root, parts) := path_parse p in
  let s := root +:+ join_parts parts in
  if String.eqb s "" then "." else s.

(** [path.name]: the last part, or the empty string. *)
Definition path_name (p : Path) : string :=
  List.last (snd (path_parse p)) "".

(** [Path(s)] and [path / key]. *)
Definition Path_of (s : string) : Path := [s].
Definition path_div (p : Path) (key : string) : Path := p ++ [key].

(** ** Tables, arrays and figures *)

(** [int(x)] of a float: truncation towards zero. *)
Definition py_int (x : Q) : Z := Z.quot (Qnum x) (Zpos (Qden x)).

(** [round(x, 2)]: to the nearest hundredth, ties to the even one. *)
Definition round_half_even (x : Q) : Z :=
  let f := Qfloor x in
  match Qcompare (x - inject_Z f) (1 # 2) with
  | Lt => f
  | Gt => (f + 1)%Z
  | Eq => if Z.even f then f else (f + 1)%Z
  end.

Definition py_round2 (x : Q) : Q := Qmake (round_half_even (x * (100 # 1))) 100.

Inductive log_level := INFO | ERROR.

Inductive log_value :=
| LStr (s : string)
| LNum (q : Q).

Section Script.

Context {A : Type} `{Numeric A}.

(** A [pl.DataFrame]: the columns in order, each a name and its cells. *)
Definition DataFrame := list (string * list A).

Definition columns (df : DataFrame) : list string := map fst df.

(** A headerless [pl.read_csv] names the columns [column_1], [column_2],
    ...; [i] is the number of columns already named. *)
Definition column_name (k : nat) : string := "column_" +:+ pretty k.

Fixpoint name_columns (i : nat) (cols : list (list A)) : DataFrame :=
  match cols with
  | [] => []
  | c :: rest => (column_name (S i), c) :: name_columns (S i) rest
  end.

Fixpoint mapping_get (k : string) (mapping : list (string * string))
  : option string :=
  match mapping with
  | [] => None
  | (old, new) :: rest => if String.eqb old k then Some new else mapping_get k rest
  end.

Definition has_column (df : DataFrame) (c : string) : bool :=
  existsb (String.eqb c) (columns df).

Fixpoint first_missing (df : DataFrame) (mapping : list (string * string))
  : option string :=
  match mapping with
  | [] => None
  | (old, _) :: rest =>
      if has_column df old then first_missing df rest else Some old
  end.

Fixpoint has_duplicate (names : list string) : bool :=
  match names with
  | [] => false
  | n :: rest => existsb (String.eqb n) rest || has_duplicate rest
  end.

Definition rename_column (mapping : list (string * string))
    (col : string * list A) : string * list A :=
  (match mapping_get (fst col) mapping with
   | Some new => new
   | None => fst col
   end, snd col).

(** [df.rename(mapping)]: every key must name a column; the columns keep
    their order and cells; the new names must be distinct. *)
Definition df_rename (df : DataFrame) (mapping : list (string * string))
  : result DataFrame :=
  match first_missing df mapping with
  | Some c => Raise (ColumnNotFoundError c)
  | None =>
      let df' := map (rename_column mapping) df in
      if has_duplicate (columns df') then Raise DuplicateError else Ok df'
  end.

(** [df[c]]. *)
Fixpoint df_getitem (df : DataFrame) (c : string) : result (list A) :=
  match df with
  | [] => Raise (ColumnNotFoundError c)
  | (n, cells) :: rest => if String.eqb n c then Ok cells else df_getitem rest c
  end.

(** [xs[i]] on a one-dimensional array: a negative index counts from the
    end; outside [-n .. n-1] it is an [IndexError]. *)
Definition np_getitem (xs : list A) (i : Z) : result A :=
  let n := Z.of_nat (length xs) in
  let j := if (i <? 0)%Z then (i + n)%Z else i in
  if (0 <=? j)%Z && (j <? n)%Z then
    match xs !! Z.to_nat j with
    | Some x => Ok x
    | None => Raise IndexError
    end
  else Raise IndexError.

(** [xs.max()] and [xs.min()]: a reduction with no identity, an error on the
    empty array. *)
Definition np_max (xs : list A) : result A :=
  match xs with
  | [] => Raise (ValueError "zero-size array to reduction operation maximum which has no identity")
  | x :: rest => Ok (fold_left num_maximum rest x)
  end.

Definition np_min (xs : list A) : result A :=
  match xs with
  | [] => Raise (ValueError "zero-size array to reduction operation minimum which has no identity")
  | x :: rest => Ok (fold_left num_minimum rest x)
  end.

(** The locals [max_range], [mid_x], [mid_y] and [mid_z] of
    [plot_trajectory]. *)
Definition axis_scaling (xs ys zs : list A) : result (A * A * A * A) :=
  xmax ← np_max xs; xmin ← np_min xs;
  ymax ← np_max ys; ymin ← np_min ys;
  zmax ← np_max zs; zmin ← np_min zs;
  spans_max ← np_max (num_array [num_sub xmax xmin; num_sub ymax ymin;
                                 num_sub zmax zmin]);
  let max_range := num_div spans_max num_two in
  let mid_x := num_mul (num_add xmax xmin) num_half in
  let mid_y := num_mul (num_add ymax ymin) num_half in
  let mid_z := num_mul (num_add zmax zmin) num_half in
  Ok (max_range, mid_x, mid_y, mid_z).

(** [ax.set_xlim(left, right)], and likewise [set_ylim] and [set_zlim]: a
    limit that is NaN or infinite is refused. *)
Definition set_lim (left right : A) : result (A * A) :=
  if num_is_finite left && num_is_finite right then Ok (left, right)
  else Raise (ValueError "Axis limits cannot be NaN or Inf").

(** What the calls on [ax] leave in the figure; [xlim], [ylim] and [zlim] are
    the limits as they were passed to [set_xlim], [set_ylim] and [set_zlim]
    (matplotlib widens an interval whose two ends are equal). *)
Record marker := mkMarker {
  marker_at : A * A * A;
  marker_color : string;
  marker_size : Z;
  marker_label : string
}.

Record figure := mkFigure {
  line_xs : list A;
  line_ys : list A;
  line_zs : list A;
  markers : list marker;
  xlabel : string;
  ylabel : string;
  zlabel : string;
  xlim : A * A;
  ylim : A * A;
  zlim : A * A
}.

(** ** The world outside the script *)

(** What the child process does: the bytes it writes on its standard
    output, its exit status, and what it does to the files other than its
    standard output (it may create, overwrite and delete files): the files
    it leaves, from the files it found. *)
Record child := mkChild {
  child_stdout : list Byte.byte;
  returncode : Z;
  child_effect : gmap string (list Byte.byte) -> gmap string (list Byte.byte)
}.

(** The collaborators the script calls and does not define: the JSON and CSV
    parsers, pydantic's conversion to [int], the program launcher, the
    clock, which paths can be created for writing, and the renderer. *)
Record env := mkEnv {
  json_loads : list Byte.byte -> option pyval;
  lax_int : pyval -> option Z;
  csv_parse : list Byte.byte -> option (list (list A));
  exec : list string -> option child;
  clock : nat -> Q;
  writable : string -> bool;
  render : figure -> list Byte.byte
}.

Inductive event :=
| EvOpen (path : string) (mode : string)
| EvClose (path : string)
| EvExec (argv : list string)
| EvLog (level : log_level) (msg : string) (fields : list (string * log_value))
| EvSaveFig (path : string) (fig : figure).

(** The state the script acts on: the files, the file objects that are open,
    how often the clock was read, and what has happened so far. *)
Record world := mkWorld {
  fs : gmap string (list Byte.byte);
  handles : list string;
  ticks : nat;
  trace : list event
}.

Definition M (X : Type) : Type := world -> result X * world.

Definition ret {X} (x : X) : M X := fun w => (Ok x, w).

Definition raise {X} (e : exception) : M X := fun w => (Raise e, w).

Definition bind {X Y} (m : M X) (k : X -> M Y) : M Y := fun w =>
  match m w with
  | (Ok x, w') => k x w'
  | (Raise e, w') => (Raise e, w')
  end.

Definition lift {X} (r : result X) : M X := fun w => (r, w).

End Script.

Arguments DataFrame A : clear implicits.
Arguments marker A : clear implicits.
Arguments figure A : clear implicits.
Arguments env A : clear implicits.
Arguments event A : clear implicits.
Arguments world A : clear implicits.
Arguments M A X : clear implicits.

#[export] Instance M_bind {A} : MBind (M A) := fun X Y k m => bind m k.
#[export] Instance M_ret {A} : MRet (M A) := fun X x => ret x.

(** ** The script's functions *)

(** The command line. *)
Record Args := mkArgs {
  arg_simulation_id : string;
  arg_fpm_binary_path : string;
  arg_output_dir : string
}.

Fixpoint remove_first (x : string) (l : list string) : list string :=
  match l with
  | [] => []
  | y :: rest => if String.eqb x y then rest else y :: remove_first x rest
  end.

Section Functions.

Context {A : Type} `{Numeric A} (E : env A).

Definition emit (e : event A) : M A unit := fun w =>
  (Ok tt, mkWorld (fs w) (handles w) (ticks w) (trace w ++ [e])).

(** [open(path, mode)] for the two modes the script uses: ["w"] creates or
    truncates the file, ["r"] needs it to exist. *)
Definition py_open (path mode : string) : M A unit := fun w =>
  if String.eqb mode "w" then
    if writable E path then
      (Ok tt, mkWorld (<[path := []]> (fs w)) (path :: handles w) (ticks w)
                (trace w ++ [EvOpen path mode]))
    else (Raise (FileNotFoundError path), w)
  else
    match fs w !! path with
    | Some _ =>
        (Ok tt, mkWorld (fs w) (path :: handles w) (ticks w)
                  (trace w ++ [EvOpen path mode]))
    | None => (Raise (FileNotFoundError path), w)
    end.

Definition py_close (path : string) (w : world A) : world A :=
  mkWorld (fs w) (remove_first path (handles w)) (ticks w)
    (trace w ++ [EvClose path]).

(** [with open(path, mode) as f: body]: the file is closed when the body is
    left, by its end or by an exception. *)
Definition with_open {X} (path mode : string) (body : M A X) : M A X := fun w =>
  match py_open path mode w with
  | (Raise e, w1) => (Raise e, w1)
  | (Ok _, w1) => let '(r, w2) := body w1 in (r, py_close path w2)
  end.

(** [json.load(f)] on the open file of [path]. *)
Definition json_load (path : string) : M A pyval := fun w =>
  match fs w !! path with
  | Some bytes =>
      match json_loads E bytes with
      | Some v => (Ok v, w)
      | None => (Raise JSONDecodeError, w)
      end
  | None => (Raise (FileNotFoundError path), w)
  end.

(** [load_index]. *)
Definition load_index : M A SimulationIndex :=
  index_data ← with_open "index.json" "r" (json_load "index.json");
  match index_data with
  | PDict items => lift (validate_SimulationIndex (lax_int E) items)
  | _ => raise TypeError
  end.

(** [pl.read_csv(path, has_header=False)]. *)
Definition read_csv (path : string) : M A (DataFrame A) := fun w =>
  match fs w !! path with
  | Some bytes =>
      match csv_parse E bytes with
      | Some cols => (Ok (name_columns 0 cols), w)
      | None => (Raise CsvParseError, w)
      end
  | None => (Raise (FileNotFoundError path), w)
  end.

(** The mapping [load_output_data] renames a trajectory table with. *)
Definition trajectory_mapping : list (string * string) :=
  [("column_1", "x"); ("column_2", "y"); ("column_3", "z")].

(** [load_output_data]. *)
Definition load_output_data (simulation : Simulation) : M A (DataFrame A) :=
  df ← read_csv (output_path simulation);
  match output_type simulation with
  | TRAJECTORY =>
      lift (df_rename df trajectory_mapping)
  end.

(** [subprocess.run(argv, check=check, stdout=f)] with [f] the open file of
    [out]: the child acts on the files, and what it wrote on the file
    descriptor follows what [out] held when the child was started; with
    [check] a non-zero exit status is an exception. *)
Definition subprocess_run (argv : list string) (check : bool) (out : string)
  : M A Z := fun w =>
  match exec E argv with
  | None => (Raise (FileNotFoundError (hd "" argv)), w)
  | Some c =>
      let written := default [] (fs w !! out) ++ child_stdout c in
      let w1 := mkWorld (<[out := written]> (child_effect c (fs w)))
                  (handles w) (ticks w) (trace w ++ [EvExec argv]) in
      if check && negb (returncode c =? 0)%Z
      then (Raise (CalledProcessError (returncode c) argv), w1)
      else (Ok (returncode c), w1)
  end.

(** [run_simulation]. *)
Definition run_simulation (simulation : Simulation) (binary_path : string)
    (output_path : Path) : M A unit :=
  with_open (path_str output_path) "w"
    (subprocess_run [binary_path; "run"; "--target"; entrypoint simulation]
       true (path_str output_path)) ;;
  mret tt.

(** [plt.savefig(output_path)]. *)
Definition savefig (path : string) (fig : figure A) : M A unit := fun w =>
  if writable E path then
    (Ok tt, mkWorld (<[path := render E fig]> (fs w)) (handles w) (ticks w)
              (trace w ++ [EvSaveFig path fig]))
  else (Raise (FileNotFoundError path), w).

(** [plot_trajectory]. *)
Definition plot_trajectory (df : DataFrame A) (output_path : Path) : M A unit :=
  xs ← lift (df_getitem df "x");
  ys ← lift (df_getitem df "y");
  zs ← lift (df_getitem df "z");
  x0 ← lift (np_getitem xs 0);
  y0 ← lift (np_getitem ys 0);
  z0 ← lift (np_getitem zs 0);
  x1 ← lift (np_getitem xs (-1));
  y1 ← lift (np_getitem ys (-1));
  z1 ← lift (np_getitem zs (-1));
  '(max_range, mid_x, mid_y, mid_z) ← lift (axis_scaling xs ys zs);
  xlim ← lift (set_lim (num_sub mid_x max_range) (num_add mid_x max_range));
  ylim ← lift (set_lim (num_sub mid_y max_range) (num_add mid_y max_range));
  zlim ← lift (set_lim (num_sub mid_z max_range) (num_add mid_z max_range));
  savefig (path_str output_path)
    {| line_xs := xs; line_ys := ys; line_zs := zs;
       markers := [ mkMarker (x0, y0, z0) "g" 100 "Start";
                    mkMarker (x1, y1, z1) "r" 100 "End" ];
       xlabel := "X Position (m)";
       ylabel := "Y Position (m)";
       zlabel := "Z Position (m)";
       xlim := xlim; ylim := ylim; zlim := zlim |}.

(** [datetime.now().timestamp()]. *)
Definition now : M A Q := fun w =>
  (Ok (clock E (ticks w)),
   mkWorld (fs w) (handles w) (S (ticks w)) (trace w)).

(** A call on the logger bound by [LOGGER.bind(simulation_id=...)]. *)
Definition log_call (bound : string) (level : log_level) (msg : string)
    (fields : list (string * log_value)) : M A unit :=
  emit (EvLog level msg (("simulation_id", LStr bound) :: fields)).

(** The log file path and the plot path [main] builds from the command line
    and the start timestamp. *)
Definition run_artifacts (args : Args) (start_ts : Q) : Path * Path :=
  let output_path := Path_of (arg_output_dir args) in
  let log_file_path :=
    path_div output_path
      (arg_simulation_id args +:+ "_" +:+ pretty (py_int start_ts) +:+ ".log") in
  let plot_path :=
    path_div output_path
      (arg_simulation_id args +:+ "_" +:+ pretty (py_int start_ts) +:+ ".png") in
  (log_file_path, plot_path).

(** [main]. *)
Definition main (args : Args) : M A unit :=
  let log := log_call (arg_simulation_id args) in
  index ← load_index;
  match get_simulation index (arg_simulation_id args) with
  | None =>
      log ERROR "Simulation with provided id not found." [] ;;
      raise (ValueError ("Simulation '" +:+ arg_simulation_id args +:+ "' not found."))
  | Some simulation =>
      start_ts ← now;
      let '(log_file_path, plot_path) := run_artifacts args start_ts in
      log INFO "Running simulation." [] ;;
      run_simulation simulation (arg_fpm_binary_path args) log_file_path ;;
      end_ts ← now;
      log INFO "Simulation finished."
        [ ("duration_seconds", LNum (py_round2 (end_ts - start_ts)));
          ("log_file", LStr (path_name log_file_path)) ] ;;
      df ← load_output_data simulation;
      match output_type simulation with
      | TRAJECTORY =>
          plot_trajectory df plot_path ;;
          log INFO "Plot saved." [ ("path", LStr (path_name plot_path)) ]
      end
  end.

End Functions.

(** ** Vocabulary of the statements *)

(** The field constraints of [Simulation]: the four constrained strings are
    not empty. *)
Definition constraints_ok (s : Simulation) : Prop :=
  simulation_id s <> "" /\ name s <> "" /\ entrypoint s <> "" /\
  output_path s <> "".

(** The dict [items] holds, under the keys of the index file, the fields of
    [s]; it may hold other keys besides. *)
Definition describes (items : list (string * pyval)) (s : Simulation) : Prop :=
  dict_get "id" items = Some (PStr (simulation_id s)) /\
  dict_get "name" items = Some (PStr (name s)) /\
  dict_get "entrypoint" items = Some (PStr (entrypoint s)) /\
  dict_get "output_type" items = Some (PStr (enum_value (output_type s))) /\
  dict_get "output_path" items = Some (PStr (output_path s)) /\
  dict_get "dimensions" items = Some (PInt (dimensions s)) /\
  dict_get "description" items = Some (PStr (description s)).

(** The dict [items] breaks a field constraint: a constrained string field is
    empty, or [output_type] is a string that is no member's value. *)
Definition violates (items : list (string * pyval)) : Prop :=
  (exists f, In f ["id"; "name"; "entrypoint"; "output_path"] /\
             dict_get f items = Some (PStr "")) \/
  (exists v, dict_get "output_type" items = Some (PStr v) /\ v <> "trajectory").

(** The order of NumPy scalars: integers as integers, otherwise as
    floats. *)
Definition np_leb (a b : npval) : bool :=
  match a, b with
  | NInt x, NInt y => (x <=? y)%Z
  | _, _ => PrimFloat.leb (np_float a) (np_float b)
  end.

Definition np_is_nan (v : npval) : bool :=
  match v with
  | NInt _ => false
  | NFloat f => PrimFloat.is_nan f
  end.

Definition int64_range (z : Z) : bool :=
  ((- 2 ^ 63 <=? z) && (z <? 2 ^ 63))%Z.

(** A column as [to_numpy] yields it: all [int64] (within the range of the
    type), or all [float64]; here with no NaN among the floats. *)
Definition is_int64 (v : npval) : bool :=
  match v with
  | NInt z => int64_range z
  | NFloat _ => false
  end.

Definition is_number (v : npval) : bool :=
  match v with
  | NInt _ => false
  | NFloat f => negb (PrimFloat.is_nan f)
  end.

Definition clean_column (col : list npval) : bool :=
  forallb is_int64 col || forallb is_number col.

(** A float column that holds a NaN. *)
Definition is_float64 (v : npval) : bool := negb (np_is_int v).

Definition has_nan (col : list npval) : bool :=
  forallb is_float64 col && existsb np_is_nan col.

(** [m] is a greatest, resp. least, cell of the column [col]. *)
Definition is_max_of (col : list npval) (m : npval) : Prop :=
  In m col /\ Forall (fun v => np_leb v m = true) col.

Definition is_min_of (col : list npval) (m : npval) : Prop :=
  In m col /\ Forall (fun v => np_leb m v = true) col.

(** The six limits [plot_trajectory] passes to [set_xlim], [set_ylim] and
    [set_zlim] are all finite. *)
Definition limits_finite {A} `{Numeric A} (max_range mid_x mid_y mid_z : A)
  : bool :=
  num_is_finite (num_sub mid_x max_range)
  && num_is_finite (num_add mid_x max_range)
  && num_is_finite (num_sub mid_y max_range)
  && num_is_finite (num_add mid_y max_range)
  && num_is_finite (num_sub mid_z max_range)
  && num_is_finite (num_add mid_z max_range).

(** The figure of a trajectory: the line through the columns, the two
    markers at [first] and [final], the axis labels, and for each axis the
    limits [mid - max_range] and [mid + max_range]. *)
Definition trajectory_figure {A} `{Numeric A} (xs ys zs : list A)
    (first final : A * A * A) (max_range mid_x mid_y mid_z : A) : figure A :=
  {| line_xs := xs; line_ys := ys; line_zs := zs;
     markers := [ mkMarker first "g" 100 "Start";
                  mkMarker final "r" 100 "End" ];
     xlabel := "X Position (m)";
     ylabel := "Y Position (m)";
     zlabel := "Z Position (m)";
     xlim := (num_sub mid_x max_range, num_add mid_x max_range);
     ylim := (num_sub mid_y max_range, num_add mid_y max_range);
     zlim := (num_sub mid_z max_range, num_add mid_z max_range) |}.

(** The error of [set_xlim], [set_ylim] and [set_zlim]. *)
Definition limits_error : exception :=
  ValueError "Axis limits cannot be NaN or Inf".

(** A file extension: at least two characters, none of them a slash. *)
Fixpoint no_sep (s : string) : bool :=
  match s with
  | EmptyString => true
  | String c rest => negb (is_sep c) && no_sep rest
  end.

Definition is_extension (e : string) : bool :=
  no_sep e && (2 <=? String.length e)%nat.

(** The events of a run that create or write an artifact. *)
Definition writes_only_to {A} (log_path plot_path : string) (e : event A) : Prop :=
  match e with
  | EvOpen path mode => path = log_path /\ mode = "w"
  | EvClose path => path = log_path
  | EvSaveFig path _ => path = plot_path
  | EvExec _ | EvLog _ _ _ => True
  end.

(** From [w] to [w'] the script opened, closed and saved nothing but the
    two artifacts: the new events concern these two paths only. *)
Definition only_artifacts {A} (log_path plot_path : string) (w w' : world A)
  : Prop :=
  exists evs : list (event A),
    trace w' = trace w ++ evs /\
    Forall (writes_only_to log_path plot_path) evs.

(** A computation that stays within the two artifacts from any world. *)
Definition stays_within {A X} (log_path plot_path : string) (m : M A X) : Prop :=
  forall w r w', m w = (r, w') -> only_artifacts log_path plot_path w w'.

(** The world after [index.json] was opened for reading and closed again. *)
Definition after_index_read {A} (w : world A) : world A :=
  mkWorld (fs w) (handles w) (ticks w)
    (trace w ++ [EvOpen "index.json" "r"; EvClose "index.json"]).

(** The files after [run_simulation] ran a child [c] with its standard output
    on the file [path]: the child found [path] empty, and left its files;
    [path] then holds what the child wrote on its standard output. *)
Definition files_after_run (path : string) (c : child)
    (files : gmap string (list Byte.byte)) : gmap string (list Byte.byte) :=
  <[path := child_stdout c]> (child_effect c (<[path := []]> files)).

Definition after_run {A} (path : string) (argv : list string) (c : child)
    (w : world A) : world A :=
  mkWorld (files_after_run path c (fs w)) (handles w)
    (ticks w) (trace w ++ [EvOpen path "w"; EvExec argv; EvClose path]).

(** ** A sample run

    One descriptor, a working directory that holds the index and the output
    table, a clock that starts at 8.5 seconds and advances by a second at
    each reading.  The parsed columns and the behaviour of the child are
    left open. *)
Definition sample_simulation : Simulation :=
  mkSimulation "orbit1" "Orbit" "orbit" TRAJECTORY "orbit.csv" 3 "".

Definition sample_env (cols : list (list npval)) (c : option child) : env npval :=
  {| json_loads := fun _ => Some (index_to_json [sample_simulation]);
     lax_int := fun _ => None;
     csv_parse := fun _ => Some cols;
     exec := fun _ => c;
     clock := fun n => Qplus (17 # 2) (inject_Z (Z.of_nat n));
     writable := fun _ => true;
     render := fun _ => [] |}.

Definition sample_world : world npval :=
  mkWorld (<["index.json" := []]> (<["orbit.csv" := []]> ∅)) [] 0 [].

(** The triples (0,0,0), (1,1,1), (2,0,2), as an integer table and as a
    float table. *)
Definition sample_columns : list (list npval) :=
  [ [NInt 0; NInt 1; NInt 2]; [NInt 0; NInt 1; NInt 0];
    [NInt 0; NInt 1; NInt 2] ].

Definition sample_table : DataFrame npval :=
  [ ("x", [NInt 0; NInt 1; NInt 2]); ("y", [NInt 0; NInt 1; NInt 0]);
    ("z", [NInt 0; NInt 1; NInt 2]) ].

Definition sample_float_table : DataFrame npval :=
  [ ("x", [NFloat 0; NFloat 1; NFloat 2]); ("y", [NFloat 0; NFloat 1; NFloat 0]);
    ("z", [NFloat 0; NFloat 1; NFloat 2]) ].

Definition failing_child : child :=
  mkChild (list_byte_of_string "step 1") 2 (fun files => files).

Definition succeeding_child : child :=
  mkChild (list_byte_of_string "done") 0 (fun files => files).

(** A table of one row whose [x] cell is NaN. *)
Definition nan_table : DataFrame npval :=
  [ ("x", [NFloat PrimFloat.nan]); ("y", [NFloat 0]); ("z", [NFloat 0]) ].

(** The points (0.1, 0, 0) and (0.3, 0, 0); the cells are the binary64
    numbers that [0.1] and [0.3] denote. *)
Definition rounding_table : DataFrame npval :=
  [ ("x", [NFloat 0x1.999999999999ap-4; NFloat 0x1.3333333333333p-2]);
    ("y", [NFloat 0; NFloat 0]);
    ("z", [NFloat 0; NFloat 0]) ].

(** Two rows whose [x] cells are the least and the greatest [int64]. *)
Definition wide_table : DataFrame npval :=
  [ ("x", [NInt (- 2 ^ 63); NInt (2 ^ 63 - 1)]);
    ("y", [NInt 0; NInt 0]);
    ("z", [NInt 0; NInt 0]) ].

(** A child that writes the output table itself. *)
Definition writing_child : child :=
  mkChild (list_byte_of_string "done") 0
    (fun files => <["orbit.csv" := list_byte_of_string "0,0,0"]> files).

(** The same surroundings with another decoding of the index file. *)
Definition sample_env_decoding (doc : option pyval) : env npval :=
  {| json_loads := fun _ => doc;
     lax_int := fun _ => None;
     csv_parse := fun _ => Some sample_columns;
     exec := fun _ => None;
     clock := fun n => Qplus (17 # 2) (inject_Z (Z.of_nat n));
     writable := fun _ => true;
     render := fun _ => [] |}.

(** A run whose descriptor has an id that begins with a slash. *)
Definition absolute_id_simulation : Simulation :=
  mkSimulation "/x" "Orbit" "orbit" TRAJECTORY "orbit.csv" 3 "".

Definition absolute_id_env : env npval :=
  {| json_loads := fun _ => Some (index_to_json [absolute_id_simulation]);
     lax_int := fun _ => None;
     csv_parse := fun _ => Some sample_columns;
     exec := fun _ => Some succeeding_child;
     clock := fun n => Qplus (17 # 2) (inject_Z (Z.of_nat n));
     writable := fun _ => true;
     render := fun _ => [] |}.

(** A working directory with no files, and one that holds the index only. *)
Definition empty_world : world npval := mkWorld ∅ [] 0 [].

Definition index_only_world : world npval :=
  mkWorld {[ "index.json" := [] ]} [] 0 [].

(** The keys [Simulation] reads from a descriptor object. *)
Definition field_keys : list string :=
  ["id"; "name"; "entrypoint"; "output_type"; "output_path"; "dimensions";
   "description"].

(** An element of [simulations] that is no dict, or a dict that lacks one of
    the keys. *)
Definition lacks_field (d : pyval) : Prop :=
  match d with
  | PDict items => exists f, In f field_keys /\ dict_get f items = None
  | _ => True
  end.

(** The descriptor [s] is what validation reads from the dict [items]: the
    string fields and the enum value as they stand under their keys,
    [dimensions] as [validate_int] converts it. *)
Definition read_from (lax : pyval -> option Z) (items : list (string * pyval))
    (s : Simulation) : Prop :=
  dict_get "id" items = Some (PStr (simulation_id s)) /\
  dict_get "name" items = Some (PStr (name s)) /\
  dict_get "entrypoint" items = Some (PStr (entrypoint s)) /\
  dict_get "output_type" items = Some (PStr (enum_value (output_type s))) /\
  dict_get "output_path" items = Some (PStr (output_path s)) /\
  validate_int lax (dict_get "dimensions" items) = Ok (dimensions s) /\
  dict_get "description" items = Some (PStr (description s)).

(** A computation that leaves the open file objects as it found them,
    whatever it returns or raises. *)
Definition keeps_handles {A X} (m : M A X) : Prop :=
  forall w r w', m w = (r, w') -> handles w' = handles w.

(** The world in which [main] starts the child: the index was read, the
    clock was read once, and the start of the run was logged. *)
Definition before_run {A} (id : string) (w : world A) : world A :=
  mkWorld (fs w) (handles w) (S (ticks w))
    (trace w ++ [ EvOpen "index.json" "r"; EvClose "index.json";
                  EvLog INFO "Running simulation." [("simulation_id", LStr id)] ]).

Ltac unfold_monad :=
  unfold mbind, mret, result_mbind, result_mret, result_bind,
    M_bind, M_ret, bind, ret, lift, raise in *.

(** * Theorems *)
(** ** Index lookup *)

Lemma get_simulation_loop_some sims q s :
  get_simulation_loop sims q = Some s <->
  exists before after,
    sims = before ++ s :: after /\
    simulation_id s = q /\
    Forall (fun d => simulation_id d <> q) before.
Proof.
  induction sims as [|d rest IH]; simpl.
  - split; [discriminate|].
    intros (before & after & Heq & _). destruct before; discriminate.
  - destruct (String.eqb (simulation_id d) q) eqn:E.
    + apply String.eqb_eq in E. split.
      * intros [= <-]. exists [], rest. repeat split; auto.
      * intros (before & after & Heq & Hid & Hall).
        destruct before as [|b before]; simpl in Heq.
        -- congruence.
        -- injection Heq as <- _. inversion Hall; subst. contradiction.
    + apply String.eqb_neq in E. rewrite IH. split.
      * intros (before & after & -> & Hid & Hall).
        exists (d :: before), after. repeat split; auto.
      * intros (before & after & Heq & Hid & Hall).
        destruct before as [|b before]; simpl in Heq.
        -- injection Heq as -> _. contradiction.
        -- injection Heq as <- ->. inversion Hall; subst.
           exists before, after. repeat split; auto.
Qed.

Lemma get_simulation_loop_none sims q :
  get_simulation_loop sims q = None <->
  Forall (fun d => simulation_id d <> q) sims.
Proof.
  induction sims as [|d rest IH]; simpl.
  - split; auto.
  - destruct (String.eqb (simulation_id d) q) eqn:E.
    + apply String.eqb_eq in E. split; [discriminate|].
      intros H. inversion H; subst. contradiction.
    + apply String.eqb_neq in E. rewrite IH. split.
      * intros H. constructor; auto.
      * intros H. inversion H; auto.
Qed.

(** C1.  [get_simulation] returns a descriptor [s] exactly when [s] is the
    first element of the list whose [simulation_id] equals the query (every
    descriptor before it has a different id), and returns [None] exactly
    when no descriptor of the index has the queried id; in particular on the
    empty index. *)
Theorem get_simulation_first_match :
  forall (index : SimulationIndex) (q : string),
    (forall s,
        get_simulation index q = Some s <->
        exists before after,
          simulations index = before ++ s :: after /\
          simulation_id s = q /\
          Forall (fun d => simulation_id d <> q) before) /\
    (get_simulation index q = None <->
     Forall (fun d => simulation_id d <> q) (simulations index)) /\
    get_simulation (mkSimulationIndex []) q = None.
Proof.
  intros index q. unfold get_simulation. split; [|split].
  - intros s. apply get_simulation_loop_some.
  - apply get_simulation_loop_none.
  - reflexivity.
Qed.

(** ** Loading the index *)

Lemma validate_str_nonempty s :
  s <> "" -> validate_str 1 (Some (PStr s)) = Ok s.
Proof. destruct s; [congruence | reflexivity]. Qed.

Lemma validate_str_ok n v s :
  validate_str n v = Ok s -> v = Some (PStr s) /\ (n <= String.length s)%nat.
Proof.
  unfold validate_str. intros Hv.
  destruct v as [[| | | |s'| |]|]; try discriminate Hv.
  destruct (n <=? String.length s')%nat eqn:Hn; [|discriminate Hv].
  injection Hv as ->. split; [reflexivity | by apply Nat.leb_le].
Qed.

Lemma validate_output_type_ok v t :
  validate_output_type v = Ok t -> v = Some (PStr "trajectory").
Proof.
  unfold validate_output_type. intros Hv.
  destruct v as [[| | | |s| |]|]; try discriminate Hv.
  cbn [List.find enum_value] in Hv.
  destruct (String.eqb "trajectory" s) eqn:Hs; [|discriminate Hv].
  apply String.eqb_eq in Hs. by subst.
Qed.

Lemma validate_output_type_value t :
  validate_output_type (Some (PStr (enum_value t))) = Ok t.
Proof. by destruct t. Qed.

Lemma validate_Simulation_describes lax items s :
  describes items s -> constraints_ok s ->
  validate_Simulation lax (PDict items) = Ok s.
Proof.
  intros (Hid & Hname & Hentry & Htype & Hpath & Hdim & Hdesc)
         (Nid & Nname & Nentry & Npath).
  unfold validate_Simulation. unfold_monad.
  rewrite Hid, Hname, Hentry, Htype, Hpath, Hdim, Hdesc.
  rewrite !validate_str_nonempty by assumption.
  rewrite validate_output_type_value. simpl. by destruct s.
Qed.

Lemma validate_str_raises n v e :
  validate_str n v = Raise e -> e = ValidationError.
Proof.
  unfold validate_str. intros Hv.
  destruct v as [[| | | |s'| |]|]; try congruence.
  destruct (n <=? String.length s')%nat; congruence.
Qed.

Lemma validate_output_type_raises v e :
  validate_output_type v = Raise e -> e = ValidationError.
Proof.
  unfold validate_output_type. intros Hv.
  destruct v as [[| | | |s'| |]|]; try congruence.
  destruct (List.find _ _); congruence.
Qed.

Lemma validate_int_raises lax v e :
  validate_int lax v = Raise e -> e = ValidationError.
Proof.
  unfold validate_int. intros Hv.
  destruct v as [[| | | | | |]|]; try congruence.
  all: destruct (lax _); congruence.
Qed.

Lemma validate_Simulation_raises lax v e :
  validate_Simulation lax v = Raise e -> e = ValidationError.
Proof.
  unfold validate_Simulation. unfold_monad. intros Hv.
  destruct v as [| | | | | |items]; try congruence.
  destruct (validate_str 1 (dict_get "id" items)) eqn:H1;
    [|injection Hv as <-; eapply validate_str_raises; eassumption].
  destruct (validate_str 1 (dict_get "name" items)) eqn:H2;
    [|injection Hv as <-; eapply validate_str_raises; eassumption].
  destruct (validate_str 1 (dict_get "entrypoint" items)) eqn:H3;
    [|injection Hv as <-; eapply validate_str_raises; eassumption].
  destruct (validate_output_type (dict_get "output_type" items)) eqn:H4;
    [|injection Hv as <-; eapply validate_output_type_raises; eassumption].
  destruct (validate_str 1 (dict_get "output_path" items)) eqn:H5;
    [|injection Hv as <-; eapply validate_str_raises; eassumption].
  destruct (validate_int lax (dict_get "dimensions" items)) eqn:H6;
    [|injection Hv as <-; eapply validate_int_raises; eassumption].
  destruct (validate_str 0 (dict_get "description" items)) eqn:H7;
    [|injection Hv as <-; eapply validate_str_raises; eassumption].
  discriminate.
Qed.

Lemma validate_Simulation_ok lax items s :
  validate_Simulation lax (PDict items) = Ok s ->
  dict_get "id" items = Some (PStr (simulation_id s)) /\
  dict_get "name" items = Some (PStr (name s)) /\
  dict_get "entrypoint" items = Some (PStr (entrypoint s)) /\
  dict_get "output_type" items = Some (PStr "trajectory") /\
  dict_get "output_path" items = Some (PStr (output_path s)) /\
  dict_get "description" items = Some (PStr (description s)) /\
  constraints_ok s.
Proof.
  unfold validate_Simulation. unfold_monad.
  destruct (validate_str 1 (dict_get "id" items)) as [i|] eqn:Hid; [|discriminate].
  destruct (validate_str 1 (dict_get "name" items)) as [n|] eqn:Hname; [|discriminate].
  destruct (validate_str 1 (dict_get "entrypoint" items)) as [en|] eqn:Hentry; [|discriminate].
  destruct (validate_output_type (dict_get "output_type" items)) as [t|] eqn:Htype; [|discriminate].
  destruct (validate_str 1 (dict_get "output_path" items)) as [o|] eqn:Hpath; [|discriminate].
  destruct (validate_int lax (dict_get "dimensions" items)) as [d|] eqn:Hdim; [|discriminate].
  destruct (validate_str 0 (dict_get "description" items)) as [de|] eqn:Hdesc; [|discriminate].
  intros [= <-]. unfold constraints_ok. simpl.
  apply validate_str_ok in Hid as [-> Li], Hname as [-> Ln], Hentry as [-> Le],
    Hpath as [-> Lo], Hdesc as [-> _].
  apply validate_output_type_ok in Htype as ->.
  repeat split; try reflexivity.
  all: intros ->; simpl in *; lia.
Qed.

Lemma validate_Simulation_violates lax items :
  violates items -> validate_Simulation lax (PDict items) = Raise ValidationError.
Proof.
  intros Hv.
  destruct (validate_Simulation lax (PDict items)) as [s|e] eqn:Hs.
  - exfalso. apply validate_Simulation_ok in Hs
      as (Hid & Hname & Hentry & Htype & Hpath & _ & Nid & Nname & Nentry & Npath).
    destruct Hv as [(f & Hf & Hempty) | (v & Hty & Hne)].
    + simpl in Hf.
      destruct Hf as [<-|[<-|[<-|[<-|[]]]]]; rewrite Hempty in *; congruence.
    + congruence.
  - f_equal. by eapply validate_Simulation_raises.
Qed.

Lemma validate_list_describes lax docs sims :
  Forall2 (fun d s => exists items, d = PDict items /\ describes items s) docs sims ->
  Forall constraints_ok sims ->
  validate_list lax docs = Ok sims.
Proof.
  induction 1 as [|d s docs sims (items & -> & Hd) _ IH]; intros Hc.
  - reflexivity.
  - inversion Hc; subst. cbn [validate_list]. unfold_monad.
    rewrite (validate_Simulation_describes lax items s) by assumption.
    fold (validate_list lax docs). by rewrite IH.
Qed.

Lemma validate_list_violates lax docs :
  Exists (fun d => exists items, d = PDict items /\ violates items) docs ->
  validate_list lax docs = Raise ValidationError.
Proof.
  induction 1 as [d docs (items & -> & Hv) | d docs _ IH].
  - cbn [validate_list]. unfold_monad.
    by rewrite validate_Simulation_violates.
  - cbn [validate_list]. unfold_monad.
    destruct (validate_Simulation lax d) as [s|e] eqn:Hs.
    + fold (validate_list lax docs). by rewrite IH.
    + f_equal. by eapply validate_Simulation_raises.
Qed.

Section LoadIndex.

Context {A : Type} (E : env A).

Lemma remove_first_head p h : remove_first p (p :: h) = h.
Proof. simpl. by rewrite String.eqb_refl. Qed.

Lemma read_index_file_missing (w : world A) :
  fs w !! "index.json" = None ->
  with_open E "index.json" "r" (json_load E "index.json") w
  = (Raise (FileNotFoundError "index.json"), w).
Proof. intros Hf. unfold with_open, py_open. simpl. by rewrite Hf. Qed.

Lemma read_index_file_present (w : world A) bytes :
  fs w !! "index.json" = Some bytes ->
  with_open E "index.json" "r" (json_load E "index.json") w
  = (match json_loads E bytes with
     | Some v => Ok v
     | None => Raise JSONDecodeError
     end, after_index_read w).
Proof.
  intros Hf. unfold with_open, py_open, json_load. simpl. rewrite Hf. simpl.
  rewrite Hf. unfold after_index_read, py_close.
  destruct (json_loads E bytes); simpl; rewrite <- app_assoc; reflexivity.
Qed.

Lemma load_index_decoded (w : world A) bytes kwargs :
  fs w !! "index.json" = Some bytes ->
  json_loads E bytes = Some (PDict kwargs) ->
  load_index E w
  = (validate_SimulationIndex (lax_int E) kwargs, after_index_read w).
Proof.
  intros Hf Hj. unfold load_index. unfold_monad.
  rewrite (read_index_file_present w bytes Hf), Hj.
  by destruct (validate_SimulationIndex (lax_int E) kwargs).
Qed.

(** Whatever [load_index] returns, the only trace it leaves is the opening and
    closing of the index file, and no file changes. *)
Lemma load_index_world (w w' : world A) r :
  load_index E w = (r, w') -> w' = w \/ w' = after_index_read w.
Proof.
  unfold load_index. unfold_monad.
  destruct (fs w !! "index.json") as [bytes|] eqn:Hf.
  - rewrite (read_index_file_present w bytes Hf).
    destruct (json_loads E bytes) as [v|]; [|intros [= _ <-]; by right].
    destruct v; intros [= _ <-]; by right.
  - rewrite (read_index_file_missing w Hf). intros [= _ <-]. by left.
Qed.

Lemma load_index_ok_world (w w' : world A) index :
  load_index E w = (Ok index, w') -> w' = after_index_read w.
Proof.
  unfold load_index. unfold_monad.
  destruct (fs w !! "index.json") as [bytes|] eqn:Hf.
  - rewrite (read_index_file_present w bytes Hf).
    destruct (json_loads E bytes) as [v|]; [|discriminate].
    destruct v; try discriminate.
    destruct (validate_SimulationIndex _ _); intros [= _ <-]; reflexivity.
  - rewrite (read_index_file_missing w Hf). discriminate.
Qed.

(** C6.  Round trip: when [index.json] decodes to an object whose
    [simulations] array holds N descriptor objects, each giving the seven
    fields of a descriptor that meets the field constraints, [load_index]
    returns the index of exactly these N descriptors, field for field, the
    input field [id] in [simulation_id].  Failure: [load_index] raises when
    the file is missing, when it does not decode, and when some object of the
    array has an empty constrained string field or an [output_type] that is
    no member of the enum. *)
Theorem load_index_round_trip (w : world A) :
  (forall bytes kwargs docs sims,
      fs w !! "index.json" = Some bytes ->
      json_loads E bytes = Some (PDict kwargs) ->
      dict_get "simulations" kwargs = Some (PList docs) ->
      Forall2 (fun d s => exists items, d = PDict items /\ describes items s)
        docs sims ->
      Forall constraints_ok sims ->
      load_index E w = (Ok (mkSimulationIndex sims), after_index_read w) /\
      length sims = length docs) /\
  (fs w !! "index.json" = None ->
   load_index E w = (Raise (FileNotFoundError "index.json"), w)) /\
  (forall bytes,
      fs w !! "index.json" = Some bytes ->
      json_loads E bytes = None ->
      load_index E w = (Raise JSONDecodeError, after_index_read w)) /\
  (forall bytes kwargs docs,
      fs w !! "index.json" = Some bytes ->
      json_loads E bytes = Some (PDict kwargs) ->
      dict_get "simulations" kwargs = Some (PList docs) ->
      Exists (fun d => exists items, d = PDict items /\ violates items) docs ->
      load_index E w = (Raise ValidationError, after_index_read w)).
Proof.
  split; [|split; [|split]].
  - intros bytes kwargs docs sims Hf Hj Hs Hd Hc. split.
    + rewrite (load_index_decoded w bytes kwargs) by assumption.
      unfold validate_SimulationIndex. rewrite Hs. unfold_monad.
      by rewrite (validate_list_describes (lax_int E) docs sims).
    + symmetry. eapply Forall2_length. eassumption.
  - intros Hf. unfold load_index. unfold_monad.
    by rewrite (read_index_file_missing w Hf).
  - intros bytes Hf Hj. unfold load_index. unfold_monad.
    by rewrite (read_index_file_present w bytes Hf), Hj.
  - intros bytes kwargs docs Hf Hj Hs Hv.
    rewrite (load_index_decoded w bytes kwargs) by assumption.
    unfold validate_SimulationIndex. rewrite Hs. unfold_monad.
    by rewrite validate_list_violates.
Qed.

End LoadIndex.

(** ** Loading the output table *)

Section LoadOutput.

Context {A : Type} `{Numeric A} (E : env A).

Lemma column_name_inj j k : column_name j = column_name k -> j = k.
Proof.
  unfold column_name. intros Heq.
  apply (inj (String.app "column_")) in Heq. by apply (inj pretty) in Heq.
Qed.

Lemma column_name_first_char k : exists t, column_name k = String "c" t.
Proof. unfold column_name. simpl. eauto. Qed.

Lemma mapping_get_later k :
  (4 <= k)%nat -> mapping_get (column_name k) trajectory_mapping = None.
Proof.
  intros Hk. unfold trajectory_mapping. cbn [mapping_get].
  assert (forall j, (j < 4)%nat -> String.eqb (column_name j) (column_name k) = false)
    as Hne.
  { intros j Hj. apply String.eqb_neq. intros Heq%column_name_inj. lia. }
  change "column_1" with (column_name 1).
  change "column_2" with (column_name 2).
  change "column_3" with (column_name 3).
  rewrite !Hne by lia. reflexivity.
Qed.

Lemma columns_name_columns i (cols : list (list A)) :
  columns (name_columns i cols) = map column_name (seq (S i) (length cols)).
Proof.
  revert i. induction cols as [|c rest IH]; intros i; simpl; [reflexivity|].
  f_equal. apply IH.
Qed.

Lemma cells_name_columns i (cols : list (list A)) :
  map snd (name_columns i cols) = cols.
Proof.
  revert i. induction cols as [|c rest IH]; intros i; simpl; [reflexivity|].
  f_equal. apply IH.
Qed.

Lemma rename_later_columns i (cols : list (list A)) :
  (3 <= i)%nat ->
  map (rename_column trajectory_mapping) (name_columns i cols) = name_columns i cols.
Proof.
  revert i. induction cols as [|c rest IH]; intros i Hi; [reflexivity|].
  cbn [name_columns map]. rewrite IH by lia. f_equal.
  unfold rename_column. cbn [fst snd]. by rewrite mapping_get_later by lia.
Qed.

Lemma has_duplicate_NoDup names : NoDup names -> has_duplicate names = false.
Proof.
  induction 1 as [|n rest Hn _ IH]; simpl; [reflexivity|].
  rewrite IH, orb_false_r. apply not_true_iff_false. intros Hex.
  apply existsb_exists in Hex as (m & Hm & Heq). apply String.eqb_eq in Heq.
  subst m. by apply Hn, list_elem_of_In.
Qed.

Lemma NoDup_column_names start len : NoDup (map column_name (seq start len)).
Proof.
  revert start. induction len as [|len IH]; intros start; simpl; constructor.
  - intros (k & Heq%column_name_inj & Hk%in_seq)%list_elem_of_In%in_map_iff. lia.
  - apply IH.
Qed.

Lemma xyz_not_column_name c start len :
  (forall t, c <> String "c" t) -> ~ In c (map column_name (seq start len)).
Proof.
  intros Hc (k & Heq & _)%in_map_iff.
  destruct (column_name_first_char k) as [t Ht]. rewrite Ht in Heq.
  by eapply Hc.
Qed.

(** The table [load_output_data] builds from the parsed columns when there
    are at least three. *)
Lemma df_rename_three (c1 c2 c3 : list A) rest :
  df_rename (name_columns 0 (c1 :: c2 :: c3 :: rest)) trajectory_mapping
  = Ok (("x", c1) :: ("y", c2) :: ("z", c3) :: name_columns 3 rest).
Proof.
  unfold df_rename.
  change (first_missing (name_columns 0 (c1 :: c2 :: c3 :: rest)) trajectory_mapping) with (@None string).
  cbn [name_columns map].
  rewrite rename_later_columns by lia.
  change (rename_column trajectory_mapping (column_name 1, c1)) with ("x", c1).
  change (rename_column trajectory_mapping (column_name 2, c2)) with ("y", c2).
  change (rename_column trajectory_mapping (column_name 3, c3)) with ("z", c3).
  rewrite has_duplicate_NoDup; [reflexivity|].
  unfold columns. cbn [map fst]. fold (columns (name_columns 3 rest)).
  rewrite columns_name_columns.
  repeat constructor; rewrite ?list_elem_of_In.
  - intros [Hx|[Hx|Hx]]; try discriminate.
    revert Hx. apply xyz_not_column_name. discriminate.
  - intros [Hx|Hx]; try discriminate.
    revert Hx. apply xyz_not_column_name. discriminate.
  - apply xyz_not_column_name. discriminate.
  - apply NoDup_column_names.
Qed.

Lemma df_rename_too_few (cols : list (list A)) :
  (length cols < 3)%nat ->
  df_rename (name_columns 0 cols) trajectory_mapping
  = Raise (ColumnNotFoundError (column_name (S (length cols)))).
Proof.
  intros Hlen.
  destruct cols as [|c1 [|c2 [|c3 rest]]]; simpl in Hlen; try lia; reflexivity.
Qed.

Lemma load_output_data_parsed (simulation : Simulation) (w : world A) bytes cols :
  fs w !! output_path simulation = Some bytes ->
  csv_parse E bytes = Some cols ->
  load_output_data E simulation w = (df_rename (name_columns 0 cols) trajectory_mapping, w).
Proof.
  intros Hf Hp. unfold load_output_data, read_csv. unfold_monad.
  rewrite Hf, Hp. destruct (output_type simulation).
  by destruct (df_rename _ _).
Qed.

Lemma load_output_data_world (simulation : Simulation) (w w' : world A) r :
  load_output_data E simulation w = (r, w') -> w' = w.
Proof.
  unfold load_output_data, read_csv. unfold_monad.
  destruct (fs w !! output_path simulation) as [bytes|]; [|by intros [= _ <-]].
  destruct (csv_parse E bytes) as [cols|]; [|by intros [= _ <-]].
  destruct (output_type simulation).
  destruct (df_rename _ _); by intros [= _ <-].
Qed.

(** C3.  When the file at the descriptor's [output_path] parses to three
    columns [c1], [c2], [c3] of [R] rows each, [load_output_data] (the output
    type is [TRAJECTORY], the only member) returns a table whose columns are
    named [x], [y], [z] in that order and hold [c1], [c2], [c3] cell for
    cell: each has length [R] and no value is changed, dropped or moved. *)
Theorem load_output_data_three_columns
    (simulation : Simulation) (w : world A) bytes (c1 c2 c3 : list A) R :
  fs w !! output_path simulation = Some bytes ->
  csv_parse E bytes = Some [c1; c2; c3] ->
  length c1 = R -> length c2 = R -> length c3 = R ->
  output_type simulation = TRAJECTORY /\
  load_output_data E simulation w = (Ok [("x", c1); ("y", c2); ("z", c3)], w) /\
  columns [("x", c1); ("y", c2); ("z", c3)] = ["x"; "y"; "z"] /\
  df_getitem [("x", c1); ("y", c2); ("z", c3)] "x" = Ok c1 /\
  df_getitem [("x", c1); ("y", c2); ("z", c3)] "y" = Ok c2 /\
  df_getitem [("x", c1); ("y", c2); ("z", c3)] "z" = Ok c3 /\
  Forall (fun col => length (snd col) = R) [("x", c1); ("y", c2); ("z", c3)].
Proof.
  intros Hf Hp H1 H2 H3.
  split; [by destruct (output_type simulation)|].
  split.
  - rewrite (load_output_data_parsed simulation w bytes [c1; c2; c3] Hf Hp).
    by rewrite df_rename_three.
  - repeat split; try reflexivity. by repeat constructor.
Qed.

(** C5, as the code has it.  When the file parses to [n >= 3] columns,
    [load_output_data] returns a table of the same [n] columns with their
    cells, the first three named [x], [y], [z] and the others keeping
    [column_4], [column_5], ...; it has exactly the three columns [x], [y],
    [z] exactly when the file has three columns. *)
Theorem load_output_data_keeps_all_columns
    (simulation : Simulation) (w : world A) bytes (cols : list (list A)) :
  fs w !! output_path simulation = Some bytes ->
  csv_parse E bytes = Some cols ->
  (3 <= length cols)%nat ->
  exists df,
    load_output_data E simulation w = (Ok df, w) /\
    length df = length cols /\
    map snd df = cols /\
    columns df
    = "x" :: "y" :: "z" :: map column_name (seq 4 (length cols - 3)) /\
    (columns df = ["x"; "y"; "z"] <-> length cols = 3%nat).
Proof.
  intros Hf Hp Hlen.
  destruct cols as [|c1 [|c2 [|c3 rest]]]; simpl in Hlen; try lia.
  exists (("x", c1) :: ("y", c2) :: ("z", c3) :: name_columns 3 rest).
  rewrite (load_output_data_parsed simulation w bytes _ Hf Hp), df_rename_three.
  assert (columns (("x", c1) :: ("y", c2) :: ("z", c3) :: name_columns 3 rest)
          = "x" :: "y" :: "z" :: map column_name (seq 4 (length rest))) as Hcols.
  { unfold columns. cbn [map fst]. fold (columns (name_columns 3 rest)).
    by rewrite columns_name_columns. }
  replace (length (c1 :: c2 :: c3 :: rest) - 3)%nat with (length rest)
    by (simpl; lia).
  split; [reflexivity|]. split; [|split; [|split]].
  - apply (f_equal (@length string)) in Hcols. unfold columns in Hcols.
    rewrite length_map in Hcols. rewrite Hcols. simpl.
    by rewrite length_map, length_seq.
  - cbn [map snd]. by rewrite cells_name_columns.
  - exact Hcols.
  - rewrite Hcols. destruct rest as [|c4 rest].
    + split; reflexivity.
    + split; [discriminate | simpl; lia].
Qed.

(** C10.  When the file parses to fewer than three columns,
    [load_output_data] raises from the rename: the first of [column_1],
    [column_2], [column_3] that the table lacks is not found.  Hence every
    table [load_output_data] returns has at least three columns, the first
    three named [x], [y], [z]. *)
Theorem load_output_data_needs_three_columns
    (simulation : Simulation) (w : world A) :
  (forall bytes (cols : list (list A)),
      fs w !! output_path simulation = Some bytes ->
      csv_parse E bytes = Some cols ->
      (length cols < 3)%nat ->
      load_output_data E simulation w
      = (Raise (ColumnNotFoundError (column_name (S (length cols)))), w)) /\
  (forall df w',
      load_output_data E simulation w = (Ok df, w') ->
      (3 <= length df)%nat /\ firstn 3 (columns df) = ["x"; "y"; "z"]).
Proof.
  split.
  - intros bytes cols Hf Hp Hlen.
    rewrite (load_output_data_parsed simulation w bytes cols Hf Hp).
    by rewrite df_rename_too_few.
  - intros df w' Hload.
    destruct (fs w !! output_path simulation) as [bytes|] eqn:Hf.
    2: { revert Hload. unfold load_output_data, read_csv. unfold_monad.
         by rewrite Hf. }
    destruct (csv_parse E bytes) as [cols|] eqn:Hp.
    2: { revert Hload. unfold load_output_data, read_csv. unfold_monad.
         by rewrite Hf, Hp. }
    rewrite (load_output_data_parsed simulation w bytes cols Hf Hp) in Hload.
    destruct cols as [|c1 [|c2 [|c3 rest]]]; try discriminate Hload.
    rewrite df_rename_three in Hload. injection Hload as <- _.
    split; [simpl; lia | reflexivity].
Qed.

End LoadOutput.

(** ** Running the simulation *)

Section RunSimulation.

Context {A : Type} (E : env A).

Lemma run_simulation_unwritable simulation binary_path (p : Path) (w : world A) :
  writable E (path_str p) = false ->
  run_simulation E simulation binary_path p w
  = (Raise (FileNotFoundError (path_str p)), w).
Proof.
  intros Hw. unfold run_simulation, with_open, py_open. unfold_monad.
  simpl. by rewrite Hw.
Qed.

Lemma run_simulation_not_started simulation binary_path (p : Path) (w : world A) :
  writable E (path_str p) = true ->
  exec E [binary_path; "run"; "--target"; entrypoint simulation] = None ->
  run_simulation E simulation binary_path p w
  = (Raise (FileNotFoundError binary_path),
     mkWorld (<[path_str p := []]> (fs w)) (handles w) (ticks w)
       (trace w ++ [EvOpen (path_str p) "w"; EvClose (path_str p)])).
Proof.
  intros Hw Hx. unfold run_simulation, with_open, py_open, subprocess_run.
  unfold_monad. simpl. rewrite Hw, Hx. unfold py_close. simpl.
  by rewrite String.eqb_refl, <- app_assoc.
Qed.

Lemma run_simulation_started simulation binary_path (p : Path) (w : world A) c :
  writable E (path_str p) = true ->
  exec E [binary_path; "run"; "--target"; entrypoint simulation] = Some c ->
  run_simulation E simulation binary_path p w
  = (if (returncode c =? 0)%Z then Ok tt
     else Raise (CalledProcessError (returncode c)
                   [binary_path; "run"; "--target"; entrypoint simulation]),
     after_run (path_str p)
       [binary_path; "run"; "--target"; entrypoint simulation] c w).
Proof.
  intros Hw Hx. unfold run_simulation, with_open, py_open, subprocess_run.
  unfold_monad. simpl. rewrite Hw, Hx. simpl.
  rewrite lookup_insert_eq. simpl.
  unfold after_run, files_after_run, py_close.
  destruct (returncode c =? 0)%Z; simpl;
    rewrite String.eqb_refl, <- !app_assoc; reflexivity.
Qed.

(** C2.  When the output file can be opened and the child process is
    started, [run_simulation] raises exactly when the child's exit status is
    not zero; whether it raises or not, the file at [output_path] then holds
    exactly the bytes the child wrote on its standard output, and the file
    object is closed again (the close is the last event, before the result
    or the exception leaves the function). *)
Theorem run_simulation_raises_iff_nonzero_exit
    simulation binary_path (p : Path) (w : world A) c :
  writable E (path_str p) = true ->
  exec E [binary_path; "run"; "--target"; entrypoint simulation] = Some c ->
  let out := run_simulation E simulation binary_path p w in
  (raised (fst out) <-> returncode c <> 0%Z) /\
  (returncode c <> 0%Z ->
   fst out = Raise (CalledProcessError (returncode c)
                      [binary_path; "run"; "--target"; entrypoint simulation])) /\
  fs (snd out) !! path_str p = Some (child_stdout c) /\
  handles (snd out) = handles w /\
  trace (snd out)
  = trace w ++ [EvOpen (path_str p) "w";
                EvExec [binary_path; "run"; "--target"; entrypoint simulation];
                EvClose (path_str p)].
Proof.
  intros Hw Hx out. subst out.
  rewrite (run_simulation_started simulation binary_path p w c Hw Hx).
  cbn [fst snd]. split; [|split; [|split; [|split]]].
  - destruct (returncode c =? 0)%Z eqn:Hrc; simpl.
    + apply Z.eqb_eq in Hrc. split; [tauto | congruence].
    + apply Z.eqb_neq in Hrc. tauto.
  - intros Hrc. apply Z.eqb_neq in Hrc. by rewrite Hrc.
  - unfold after_run. simpl. apply lookup_insert_eq.
  - reflexivity.
  - reflexivity.
Qed.

End RunSimulation.

(** ** Plotting the trajectory *)

Section PlotTrajectory.

Context {A : Type} `{Numeric A} (E : env A).

Lemma np_getitem_first (xs : list A) x0 :
  head xs = Some x0 -> np_getitem xs 0 = Ok x0.
Proof.
  destruct xs as [|x rest]; [discriminate|]. intros [= ->].
  unfold np_getitem. cbn [length]. change (0 <? 0)%Z with false. cbv iota.
  change (0 <=? 0)%Z with true.
  destruct (Z.ltb_spec 0 (Z.of_nat (S (length rest)))); [reflexivity | lia].
Qed.

Lemma np_getitem_last (xs : list A) x1 :
  last xs = Some x1 -> np_getitem xs (-1) = Ok x1.
Proof.
  intros Hlast. assert (xs <> []) as Hne by (intros ->; discriminate).
  assert (0 < length xs)%nat as Hlen by (destruct xs; simpl; [congruence | lia]).
  unfold np_getitem. change (-1 <? 0)%Z with true. cbv iota.
  destruct (Z.leb_spec 0 (-1 + Z.of_nat (length xs))); [|lia].
  destruct (Z.ltb_spec (-1 + Z.of_nat (length xs)) (Z.of_nat (length xs))); [|lia].
  cbn [andb].
  replace (Z.to_nat (-1 + Z.of_nat (length xs))) with (pred (length xs)) by lia.
  by rewrite <- last_lookup, Hlast.
Qed.

Lemma np_getitem_empty (i : Z) : np_getitem (@nil A) i = Raise IndexError.
Proof.
  unfold np_getitem. cbn [length]. change (Z.of_nat 0) with 0%Z.
  destruct (i <? 0)%Z eqn:Hi.
  - rewrite Z.add_0_r. destruct (Z.leb_spec 0 i), (Z.ltb_spec i 0);
      try reflexivity; apply Z.ltb_lt in Hi; lia.
  - destruct (Z.leb_spec 0 i), (Z.ltb_spec i 0); try reflexivity; lia.
Qed.

Lemma np_max_array3 (a b c : A) :
  exists m, np_max (num_array [a; b; c]) = Ok m.
Proof.
  pose proof (num_array_length [a; b; c]) as Hlen.
  destruct (num_array [a; b; c]) as [|m rest]; [discriminate|].
  eexists. reflexivity.
Qed.

Lemma axis_scaling_nonempty (xs ys zs : list A) :
  xs <> [] -> ys <> [] -> zs <> [] ->
  exists scaling, axis_scaling xs ys zs = Ok scaling.
Proof.
  destruct xs as [|x xs], ys as [|y ys], zs as [|z zs]; try congruence.
  intros _ _ _. unfold axis_scaling. cbn [np_max np_min]. unfold_monad.
  match goal with
  | |- context [np_max (num_array [?a; ?b; ?c])] =>
      destruct (np_max_array3 a b c) as [m ->]
  end.
  eauto.
Qed.

(** [plot_trajectory] once the columns, the marker cells and the scaling
    are known: the limits are set and the figure is saved, or a limit is
    refused. *)
Lemma plot_trajectory_scaled
    (df : DataFrame A) (p : Path) (w : world A)
    xs ys zs x0 y0 z0 x1 y1 z1 max_range mid_x mid_y mid_z :
  df_getitem df "x" = Ok xs ->
  df_getitem df "y" = Ok ys ->
  df_getitem df "z" = Ok zs ->
  np_getitem xs 0 = Ok x0 -> np_getitem ys 0 = Ok y0 -> np_getitem zs 0 = Ok z0 ->
  np_getitem xs (-1) = Ok x1 -> np_getitem ys (-1) = Ok y1 ->
  np_getitem zs (-1) = Ok z1 ->
  axis_scaling xs ys zs = Ok (max_range, mid_x, mid_y, mid_z) ->
  plot_trajectory E df p w
  = if limits_finite max_range mid_x mid_y mid_z
    then savefig E (path_str p)
           (trajectory_figure xs ys zs (x0, y0, z0) (x1, y1, z1)
              max_range mid_x mid_y mid_z) w
    else (Raise limits_error, w).
Proof.
  intros Hx Hy Hz Hx0 Hy0 Hz0 Hx1 Hy1 Hz1 Hs.
  unfold plot_trajectory. unfold_monad.
  rewrite Hx, Hy, Hz, Hx0, Hy0, Hz0, Hx1, Hy1, Hz1, Hs.
  unfold set_lim, limits_finite, limits_error, trajectory_figure.
  destruct (num_is_finite (num_sub mid_x max_range));
    destruct (num_is_finite (num_add mid_x max_range));
    destruct (num_is_finite (num_sub mid_y max_range));
    destruct (num_is_finite (num_add mid_y max_range));
    destruct (num_is_finite (num_sub mid_z max_range));
    destruct (num_is_finite (num_add mid_z max_range)); reflexivity.
Qed.

(** Whatever [plot_trajectory] does, it ends in [savefig] or it raises with
    the world as it was. *)
Lemma plot_trajectory_world (df : DataFrame A) (p : Path) (w : world A) :
  (exists fig, plot_trajectory E df p w = savefig E (path_str p) fig w) \/
  (exists e, plot_trajectory E df p w = (Raise e, w)).
Proof.
  unfold plot_trajectory. unfold_monad.
  repeat match goal with
         | |- context [match ?r with Ok _ => _ | Raise _ => _ end] =>
             destruct r as [?|?]; [|right; eauto]
         | s : (_ * _)%type |- _ => destruct s
         end.
  left. eexists. reflexivity.
Qed.

(** C9, as the code has it.  On a table with at least one row (columns [x],
    [y], [z] of one length, not empty), the index accesses [xs[0]] and [xs[-1]] (and those
    on [ys], [zs]) are in bounds, the start marker is the first row and the
    end marker is the last row, and [plot_trajectory] never raises
    [IndexError]: it goes on to the axis limits.  When the six limits are
    finite it reaches [savefig] with the figure that carries these markers,
    and on a writable path it returns normally with the figure saved; when
    one of them is NaN or infinite, [set_xlim], [set_ylim] or [set_zlim]
    raises [ValueError] and nothing is saved.  With exactly one row the two
    markers are the same point. *)
Theorem plot_trajectory_markers
    (df : DataFrame A) (p : Path) (w : world A) (xs ys zs : list A) :
  df_getitem df "x" = Ok xs ->
  df_getitem df "y" = Ok ys ->
  df_getitem df "z" = Ok zs ->
  (1 <= length xs)%nat -> length ys = length xs -> length zs = length xs ->
  exists x0 y0 z0 x1 y1 z1 max_range mid_x mid_y mid_z,
    (head xs = Some x0 /\ head ys = Some y0 /\ head zs = Some z0) /\
    (last xs = Some x1 /\ last ys = Some y1 /\ last zs = Some z1) /\
    (np_getitem xs 0 = Ok x0 /\ np_getitem ys 0 = Ok y0 /\
     np_getitem zs 0 = Ok z0) /\
    (np_getitem xs (-1) = Ok x1 /\ np_getitem ys (-1) = Ok y1 /\
     np_getitem zs (-1) = Ok z1) /\
    axis_scaling xs ys zs = Ok (max_range, mid_x, mid_y, mid_z) /\
    plot_trajectory E df p w
    = (if limits_finite max_range mid_x mid_y mid_z
       then savefig E (path_str p)
              (trajectory_figure xs ys zs (x0, y0, z0) (x1, y1, z1)
                 max_range mid_x mid_y mid_z) w
       else (Raise limits_error, w)) /\
    markers (trajectory_figure xs ys zs (x0, y0, z0) (x1, y1, z1)
               max_range mid_x mid_y mid_z)
    = [ mkMarker (x0, y0, z0) "g" 100 "Start";
        mkMarker (x1, y1, z1) "r" 100 "End" ] /\
    fst (plot_trajectory E df p w) <> Raise IndexError /\
    (limits_finite max_range mid_x mid_y mid_z = true ->
     writable E (path_str p) = true ->
     plot_trajectory E df p w
     = (Ok tt,
        mkWorld
          (<[path_str p :=
               render E (trajectory_figure xs ys zs (x0, y0, z0) (x1, y1, z1)
                           max_range mid_x mid_y mid_z)]> (fs w))
          (handles w) (ticks w)
          (trace w ++
           [EvSaveFig (path_str p)
              (trajectory_figure xs ys zs (x0, y0, z0) (x1, y1, z1)
                 max_range mid_x mid_y mid_z)]))) /\
    (limits_finite max_range mid_x mid_y mid_z = false ->
     plot_trajectory E df p w = (Raise limits_error, w)) /\
    (length xs = 1%nat -> (x0, y0, z0) = (x1, y1, z1)).
Proof.
  intros Hx Hy Hz Hlen Hly Hlz.
  assert (xs <> [] /\ ys <> [] /\ zs <> []) as (Nx & Ny & Nz).
  { repeat split; intros ->; simpl in *; lia. }
  destruct (proj2 (last_is_Some xs) Nx) as [x1 Hx1].
  destruct (proj2 (last_is_Some ys) Ny) as [y1 Hy1].
  destruct (proj2 (last_is_Some zs) Nz) as [z1 Hz1].
  destruct xs as [|x0 xs'], ys as [|y0 ys'], zs as [|z0 zs']; try congruence.
  destruct (axis_scaling_nonempty (x0 :: xs') (y0 :: ys') (z0 :: zs') Nx Ny Nz)
    as [[[[max_range mid_x] mid_y] mid_z] Hs].
  pose proof (plot_trajectory_scaled df p w _ _ _ _ _ _ _ _ _ _ _ _ _
                Hx Hy Hz
                (np_getitem_first (x0 :: xs') x0 eq_refl)
                (np_getitem_first (y0 :: ys') y0 eq_refl)
                (np_getitem_first (z0 :: zs') z0 eq_refl)
                (np_getitem_last _ _ Hx1) (np_getitem_last _ _ Hy1)
                (np_getitem_last _ _ Hz1) Hs) as Hplot.
  exists x0, y0, z0, x1, y1, z1, max_range, mid_x, mid_y, mid_z.
  split; [done|]. split; [done|].
  split; [repeat split; by apply np_getitem_first|].
  split; [repeat split; by apply np_getitem_last|].
  split; [exact Hs|]. split; [exact Hplot|]. split; [reflexivity|].
  split; [|split; [|split]].
  - rewrite Hplot. destruct (limits_finite max_range mid_x mid_y mid_z).
    + unfold savefig. by destruct (writable E (path_str p)).
    + discriminate.
  - intros Hfin Hw. rewrite Hplot, Hfin. unfold savefig. by rewrite Hw.
  - intros Hfin. by rewrite Hplot, Hfin.
  - intros Hone. destruct xs', ys', zs'; simpl in *; try lia. congruence.
Qed.

End PlotTrajectory.

(** C9, as stated, fails on a table of one row whose [x] cell is NaN: the
    index accesses are in bounds and the path is writable, but plotting does
    not succeed, [set_xlim] raises [ValueError]. *)
Lemma plot_trajectory_single_nan_row :
  df_getitem nan_table "x" = Ok [NFloat PrimFloat.nan] /\
  df_getitem nan_table "y" = Ok [NFloat 0] /\
  df_getitem nan_table "z" = Ok [NFloat 0] /\
  writable (sample_env [] None) "plot.png" = true /\
  plot_trajectory (sample_env [] None) nan_table (Path_of "plot.png")
    sample_world
  = (Raise limits_error, sample_world).
Proof. repeat split; vm_compute; reflexivity. Qed.

(** ** The order of floats and the greatest cell of a column *)

Import SpecFloat.

Ltac sf_cases :=
  repeat match goal with s : bool |- _ => destruct s end;
  simpl; try reflexivity; try discriminate;
  repeat match goal with
         | |- context [Z.compare ?x ?y] => destruct (Z.compare_spec x y)
         | |- context [Pos.compare_cont Eq ?x ?y] =>
             change (Pos.compare_cont Eq x y) with (Pos.compare x y);
             destruct (Pos.compare_spec x y)
         end;
  simpl in *; subst; try reflexivity; try discriminate; try lia.

Lemma SFleb_refl f : f <> S754_nan -> SFleb f f = true.
Proof.
  unfold SFleb, SFcompare.
  destruct f as [s|s| |s m e]; intros Hn; try congruence; sf_cases.
Qed.

Lemma SFltb_false_leb a b :
  a <> S754_nan -> b <> S754_nan -> SFltb a b = false -> SFleb b a = true.
Proof.
  unfold SFltb, SFleb, SFcompare.
  destruct a as [sa|sa| |sa ma ea], b as [sb|sb| |sb mb eb]; intros Ha Hb;
    try congruence; sf_cases.
Qed.

Lemma SFltb_leb a b : SFltb a b = true -> SFleb a b = true.
Proof. unfold SFltb, SFleb. destruct (SFcompare a b) as [[]|]; congruence. Qed.

Lemma SFleb_trans a b c :
  SFleb a b = true -> SFleb b c = true -> SFleb a c = true.
Proof.
  unfold SFleb, SFcompare.
  destruct a as [sa|sa| |sa ma ea], b as [sb|sb| |sb mb eb],
           c as [sc|sc| |sc mc ec];
    try discriminate; sf_cases.
Qed.

Lemma not_nan_spec f : PrimFloat.is_nan f = false -> Prim2SF f <> S754_nan.
Proof.
  unfold PrimFloat.is_nan. rewrite FloatAxioms.eqb_spec. intros Hf Hn. rewrite Hn in Hf.
  discriminate.
Qed.

Lemma float_leb_refl f : PrimFloat.is_nan f = false -> PrimFloat.leb f f = true.
Proof. intros Hf. rewrite FloatAxioms.leb_spec. by apply SFleb_refl, not_nan_spec. Qed.

Lemma float_leb_trans a b c :
  PrimFloat.leb a b = true -> PrimFloat.leb b c = true ->
  PrimFloat.leb a c = true.
Proof. rewrite !FloatAxioms.leb_spec. apply SFleb_trans. Qed.

Lemma float_maximum_spec a b :
  PrimFloat.is_nan a = false -> PrimFloat.is_nan b = false ->
  (float_maximum a b = a \/ float_maximum a b = b) /\
  PrimFloat.leb a (float_maximum a b) = true /\
  PrimFloat.leb b (float_maximum a b) = true.
Proof.
  intros Ha Hb. unfold float_maximum. rewrite Ha, Hb.
  destruct (PrimFloat.ltb a b) eqn:Hlt.
  - split; [by right|]. split; [|by apply float_leb_refl].
    rewrite FloatAxioms.leb_spec. apply SFltb_leb. by rewrite <- FloatAxioms.ltb_spec.
  - split; [by left|]. split; [by apply float_leb_refl|].
    rewrite FloatAxioms.leb_spec. apply SFltb_false_leb; try by apply not_nan_spec.
    by rewrite <- FloatAxioms.ltb_spec.
Qed.

Lemma float_minimum_spec a b :
  PrimFloat.is_nan a = false -> PrimFloat.is_nan b = false ->
  (float_minimum a b = a \/ float_minimum a b = b) /\
  PrimFloat.leb (float_minimum a b) a = true /\
  PrimFloat.leb (float_minimum a b) b = true.
Proof.
  intros Ha Hb. unfold float_minimum. rewrite Ha, Hb.
  destruct (PrimFloat.ltb b a) eqn:Hlt.
  - split; [by right|]. split; [|by apply float_leb_refl].
    rewrite FloatAxioms.leb_spec. apply SFltb_leb. by rewrite <- FloatAxioms.ltb_spec.
  - split; [by left|]. split; [by apply float_leb_refl|].
    rewrite FloatAxioms.leb_spec. apply SFltb_false_leb; try by apply not_nan_spec.
    by rewrite <- FloatAxioms.ltb_spec.
Qed.

Lemma wrap_int64_range z : int64_range z = true -> wrap_int64 z = z.
Proof.
  unfold int64_range, wrap_int64.
  intros [Hlo%Z.leb_le Hhi%Z.ltb_lt]%andb_true_iff.
  rewrite Z.mod_small by lia. lia.
Qed.

(** A reduction that picks one of its two operands, above (or below) both,
    reaches a greatest (or least) cell of the column. *)
Section Reduction.

Variable good : npval -> bool.
Variable op : npval -> npval -> npval.
Variable below : npval -> npval -> bool.

Hypothesis op_good : forall a b, good a = true -> good b = true ->
  good (op a b) = true /\ (op a b = a \/ op a b = b) /\
  below a (op a b) = true /\ below b (op a b) = true.
Hypothesis below_trans : forall a b c,
  good a = true -> good b = true -> good c = true ->
  below a b = true -> below b c = true -> below a c = true.
Hypothesis below_refl : forall a, good a = true -> below a a = true.

Lemma fold_reaches_extreme (rest : list npval) (x : npval) :
  good x = true -> forallb good rest = true ->
  good (fold_left op rest x) = true /\
  In (fold_left op rest x) (x :: rest) /\
  Forall (fun v => below v (fold_left op rest x) = true) (x :: rest).
Proof.
  revert x. induction rest as [|y rest IH]; intros x Hx Hrest; cbn [fold_left].
  - split; [assumption|]. split; [by left|].
    constructor; [by apply below_refl | constructor].
  - cbn [forallb] in Hrest. apply andb_true_iff in Hrest as [Hy Hrest].
    destruct (op_good x y Hx Hy) as (Hg & Hpick & Hbx & Hby).
    destruct (IH (op x y) Hg Hrest) as (Hgood & Hin & Hall).
    inversion Hall as [|? ? Hle Hothers]; subst.
    split; [assumption|]. split.
    + destruct Hin as [Heq|Hin]; [|right; by right].
      rewrite <- Heq. destruct Hpick as [->| ->]; [by left | right; by left].
    + constructor; [by apply (below_trans x (op x y))|].
      constructor; [by apply (below_trans y (op x y)) | assumption].
Qed.

End Reduction.

Lemma np_leb_trans_int64 a b c :
  is_int64 a = true -> is_int64 b = true -> is_int64 c = true ->
  np_leb a b = true -> np_leb b c = true -> np_leb a c = true.
Proof.
  destruct a as [x|], b as [y|], c as [z|]; try discriminate.
  cbn [np_leb]. intros _ _ _ Hxy%Z.leb_le Hyz%Z.leb_le. apply Z.leb_le. lia.
Qed.

Lemma np_leb_trans_number a b c :
  is_number a = true -> is_number b = true -> is_number c = true ->
  np_leb a b = true -> np_leb b c = true -> np_leb a c = true.
Proof.
  destruct a as [?|fa], b as [?|fb], c as [?|fc]; try discriminate.
  cbn [np_leb np_float]. intros _ _ _. apply float_leb_trans.
Qed.

Lemma int64_maximum a b :
  is_int64 a = true -> is_int64 b = true ->
  is_int64 (num_maximum a b) = true /\
  (num_maximum a b = a \/ num_maximum a b = b) /\
  np_leb a (num_maximum a b) = true /\ np_leb b (num_maximum a b) = true.
Proof.
  destruct a as [x|], b as [y|]; try discriminate. cbn [is_int64]. intros Hx Hy.
  cbn [num_maximum Numeric_npval np_binary].
  assert (int64_range (Z.max x y) = true) as Hm
    by (destruct (Z.max_spec x y) as [[_ ->]|[_ ->]]; assumption).
  rewrite (wrap_int64_range _ Hm). cbn [is_int64 np_leb].
  split; [exact Hm|]. split.
  - destruct (Z.max_spec x y) as [[_ ->]|[_ ->]]; auto.
  - split; apply Z.leb_le; lia.
Qed.

Lemma int64_minimum a b :
  is_int64 a = true -> is_int64 b = true ->
  is_int64 (num_minimum a b) = true /\
  (num_minimum a b = a \/ num_minimum a b = b) /\
  np_leb (num_minimum a b) a = true /\ np_leb (num_minimum a b) b = true.
Proof.
  destruct a as [x|], b as [y|]; try discriminate. cbn [is_int64]. intros Hx Hy.
  cbn [num_minimum Numeric_npval np_binary].
  assert (int64_range (Z.min x y) = true) as Hm
    by (destruct (Z.min_spec x y) as [[_ ->]|[_ ->]]; assumption).
  rewrite (wrap_int64_range _ Hm). cbn [is_int64 np_leb].
  split; [exact Hm|]. split.
  - destruct (Z.min_spec x y) as [[_ ->]|[_ ->]]; auto.
  - split; apply Z.leb_le; lia.
Qed.

Lemma number_maximum a b :
  is_number a = true -> is_number b = true ->
  is_number (num_maximum a b) = true /\
  (num_maximum a b = a \/ num_maximum a b = b) /\
  np_leb a (num_maximum a b) = true /\ np_leb b (num_maximum a b) = true.
Proof.
  destruct a as [|x], b as [|y]; try discriminate. cbn [is_number].
  intros Hx%negb_true_iff Hy%negb_true_iff.
  cbn [num_maximum Numeric_npval np_binary np_float np_leb is_number].
  destruct (float_maximum_spec x y Hx Hy) as (Hpick & Hbx & Hby).
  split; [|split; [|by split]].
  - apply negb_true_iff. by destruct Hpick as [->| ->].
  - destruct Hpick as [->| ->]; auto.
Qed.

Lemma number_minimum a b :
  is_number a = true -> is_number b = true ->
  is_number (num_minimum a b) = true /\
  (num_minimum a b = a \/ num_minimum a b = b) /\
  np_leb (num_minimum a b) a = true /\ np_leb (num_minimum a b) b = true.
Proof.
  destruct a as [|x], b as [|y]; try discriminate. cbn [is_number].
  intros Hx%negb_true_iff Hy%negb_true_iff.
  cbn [num_minimum Numeric_npval np_binary np_float np_leb is_number].
  destruct (float_minimum_spec x y Hx Hy) as (Hpick & Hbx & Hby).
  split; [|split; [|by split]].
  - apply negb_true_iff. by destruct Hpick as [->| ->].
  - destruct Hpick as [->| ->]; auto.
Qed.

Lemma np_leb_refl_int64 a : is_int64 a = true -> np_leb a a = true.
Proof. destruct a; [|discriminate]. intros _. apply Z.leb_refl. Qed.

Lemma np_leb_refl_number a : is_number a = true -> np_leb a a = true.
Proof.
  destruct a as [|x]; [discriminate|]. intros Hx%negb_true_iff.
  by apply float_leb_refl.
Qed.

Lemma np_max_is_max (col : list npval) :
  col <> [] -> clean_column col = true ->
  exists m, np_max col = Ok m /\ is_max_of col m.
Proof.
  destruct col as [|x rest]; [congruence|]. intros _ Hclean.
  exists (fold_left num_maximum rest x). split; [reflexivity|].
  unfold clean_column in Hclean. cbn [forallb] in Hclean.
  apply orb_true_iff in Hclean as [[Hx Hr]%andb_true_iff | [Hx Hr]%andb_true_iff].
  - apply (fold_reaches_extreme is_int64 num_maximum np_leb int64_maximum
             np_leb_trans_int64 np_leb_refl_int64 rest x Hx Hr).
  - apply (fold_reaches_extreme is_number num_maximum np_leb number_maximum
             np_leb_trans_number np_leb_refl_number rest x Hx Hr).
Qed.

Lemma np_min_is_min (col : list npval) :
  col <> [] -> clean_column col = true ->
  exists m, np_min col = Ok m /\ is_min_of col m.
Proof.
  destruct col as [|x rest]; [congruence|]. intros _ Hclean.
  exists (fold_left num_minimum rest x). split; [reflexivity|].
  unfold clean_column in Hclean. cbn [forallb] in Hclean.
  apply orb_true_iff in Hclean as [[Hx Hr]%andb_true_iff | [Hx Hr]%andb_true_iff].
  - apply (fold_reaches_extreme is_int64 num_minimum (fun a b => np_leb b a)
             int64_minimum); auto using np_leb_refl_int64.
    intros a b c Ha Hb Hc Hab Hbc. by apply (np_leb_trans_int64 c b a).
  - apply (fold_reaches_extreme is_number num_minimum (fun a b => np_leb b a)
             number_minimum); auto using np_leb_refl_number.
    intros a b c Ha Hb Hc Hab Hbc. by apply (np_leb_trans_number c b a).
Qed.

(** NaN cells: a reduction of a float column that holds a NaN is NaN, and
    so are the midpoint and the limits computed from it. *)

Lemma is_nan_spec f : PrimFloat.is_nan f = true -> Prim2SF f = S754_nan.
Proof.
  unfold PrimFloat.is_nan. rewrite FloatAxioms.eqb_spec.
  destruct (Prim2SF f) as [s|s| |s m e]; try reflexivity;
    unfold SFeqb, SFcompare; destruct s; try discriminate;
    rewrite Z.compare_refl, ?Pos.compare_cont_refl, ?CompOpp_involutive;
    try discriminate.
  all: change (Pos.compare_cont Eq m m) with (Pos.compare m m);
    rewrite Pos.compare_refl; discriminate.
Qed.

Lemma is_nan_of_spec f : Prim2SF f = S754_nan -> PrimFloat.is_nan f = true.
Proof.
  intros Hf. unfold PrimFloat.is_nan. by rewrite FloatAxioms.eqb_spec, Hf.
Qed.

Lemma float_add_nan a b :
  PrimFloat.is_nan a = true -> PrimFloat.is_nan (a + b) = true.
Proof.
  intros Ha%is_nan_spec. apply is_nan_of_spec.
  by rewrite add_spec, Ha.
Qed.

Lemma float_sub_nan a b :
  PrimFloat.is_nan a = true -> PrimFloat.is_nan (a - b) = true.
Proof.
  intros Ha%is_nan_spec. apply is_nan_of_spec.
  by rewrite sub_spec, Ha.
Qed.

Lemma float_mul_nan a b :
  PrimFloat.is_nan a = true -> PrimFloat.is_nan (a * b) = true.
Proof.
  intros Ha%is_nan_spec. apply is_nan_of_spec.
  by rewrite mul_spec, Ha.
Qed.

Lemma float_nan_not_finite a :
  PrimFloat.is_nan a = true -> PrimFloat.is_finite a = false.
Proof. intros Ha. unfold PrimFloat.is_finite. by rewrite Ha. Qed.

Lemma float_maximum_nan a b :
  PrimFloat.is_nan a = true \/ PrimFloat.is_nan b = true ->
  PrimFloat.is_nan (float_maximum a b) = true.
Proof.
  unfold float_maximum. intros [Ha|Hb].
  - by rewrite Ha.
  - destruct (PrimFloat.is_nan a) eqn:Ha; [assumption|]. by rewrite Hb.
Qed.

Lemma float_minimum_nan a b :
  PrimFloat.is_nan a = true \/ PrimFloat.is_nan b = true ->
  PrimFloat.is_nan (float_minimum a b) = true.
Proof.
  unfold float_minimum. intros [Ha|Hb].
  - by rewrite Ha.
  - destruct (PrimFloat.is_nan a) eqn:Ha; [assumption|]. by rewrite Hb.
Qed.

Lemma fold_nan (op : float -> float -> float) (on_int : Z -> Z -> Z) :
  (forall a b, PrimFloat.is_nan a = true \/ PrimFloat.is_nan b = true ->
               PrimFloat.is_nan (op a b) = true) ->
  forall rest x,
    forallb is_float64 (x :: rest) = true ->
    existsb np_is_nan (x :: rest) = true ->
    np_is_nan (fold_left (np_binary on_int op) rest x) = true.
Proof.
  intros Hop rest. induction rest as [|y rest IH]; intros x Hfloat Hnan.
  - cbn [existsb] in Hnan. rewrite orb_false_r in Hnan. exact Hnan.
  - cbn [fold_left]. cbn [forallb existsb] in *.
    apply andb_true_iff in Hfloat as [Hx [Hy Hrest]%andb_true_iff].
    destruct x as [|a]; [discriminate|]. destruct y as [|b]; [discriminate|].
    cbn [np_binary np_float]. apply IH.
    + cbn [forallb]. by rewrite Hrest.
    + cbn [existsb np_is_nan] in *.
      apply orb_true_iff in Hnan as [Ha|Hnan].
      * rewrite Hop by (by left). reflexivity.
      * apply orb_true_iff in Hnan as [Hb|Hnan].
        -- rewrite Hop by (by right). reflexivity.
        -- rewrite Hnan. by rewrite orb_true_r.
Qed.

Lemma np_max_nan (col : list npval) :
  has_nan col = true -> exists m, np_max col = Ok m /\ np_is_nan m = true.
Proof.
  unfold has_nan. intros [Hfloat Hnan]%andb_true_iff.
  destruct col as [|x rest]; [discriminate|].
  eexists. split; [reflexivity|].
  by apply (fold_nan float_maximum Z.max float_maximum_nan).
Qed.

Lemma np_min_nan (col : list npval) :
  has_nan col = true -> exists m, np_min col = Ok m /\ np_is_nan m = true.
Proof.
  unfold has_nan. intros [Hfloat Hnan]%andb_true_iff.
  destruct col as [|x rest]; [discriminate|].
  eexists. split; [reflexivity|].
  by apply (fold_nan float_minimum Z.min float_minimum_nan).
Qed.

Lemma midpoint_nan (cmax cmin : npval) :
  np_is_nan cmax = true ->
  np_is_nan (num_mul (num_add cmax cmin) (NFloat 0.5)) = true.
Proof.
  destruct cmax as [|a]; [discriminate|]. cbn [np_is_nan]. intros Ha.
  cbn [num_mul num_add Numeric_npval np_binary np_float np_is_nan].
  by apply float_mul_nan, float_add_nan.
Qed.

Lemma limit_nan (mid max_range : npval) :
  np_is_nan mid = true ->
  num_is_finite (num_sub mid max_range) = false.
Proof.
  destruct mid as [|a]; [discriminate|]. cbn [np_is_nan]. intros Ha.
  cbn [num_is_finite num_sub Numeric_npval np_binary np_float np_isfinite].
  by apply float_nan_not_finite, float_sub_nan.
Qed.

Lemma limits_not_finite (max_range mid_x mid_y mid_z : npval) :
  np_is_nan mid_x = true \/ np_is_nan mid_y = true \/ np_is_nan mid_z = true ->
  limits_finite max_range mid_x mid_y mid_z = false.
Proof.
  unfold limits_finite. intros [Hm|[Hm|Hm]];
    rewrite (limit_nan _ max_range Hm);
    rewrite ?andb_false_r, ?andb_false_l; reflexivity.
Qed.

Lemma axis_scaling_nan (xs ys zs : list npval) :
  xs <> [] -> ys <> [] -> zs <> [] ->
  has_nan xs = true \/ has_nan ys = true \/ has_nan zs = true ->
  exists max_range mid_x mid_y mid_z,
    axis_scaling xs ys zs = Ok (max_range, mid_x, mid_y, mid_z) /\
    limits_finite max_range mid_x mid_y mid_z = false.
Proof.
  intros Nx Ny Nz Hnan.
  destruct xs as [|x xs], ys as [|y ys], zs as [|z zs]; try congruence.
  unfold axis_scaling. cbn [np_max np_min]. unfold_monad.
  match goal with
  | |- context [np_max (num_array [?a; ?b; ?c])] =>
      destruct (np_max_array3 a b c) as [m ->]
  end.
  eexists _, _, _, _. split; [reflexivity|].
  apply limits_not_finite.
  destruct Hnan as [Hn|[Hn|Hn]]; [left | right; left | right; right];
    apply midpoint_nan;
    destruct (np_max_nan _ Hn) as (m' & [= <-] & Hm'); exact Hm'.
Qed.

(** ** The axis limits *)

Section AxisLimits.

Variable E : env npval.

Lemma axis_scaling_clean (xs ys zs : list npval) :
  xs <> [] -> ys <> [] -> zs <> [] ->
  clean_column xs = true -> clean_column ys = true -> clean_column zs = true ->
  exists xmax xmin ymax ymin zmax zmin spans_max,
    (is_max_of xs xmax /\ is_min_of xs xmin) /\
    (is_max_of ys ymax /\ is_min_of ys ymin) /\
    (is_max_of zs zmax /\ is_min_of zs zmin) /\
    np_max (np_array [num_sub xmax xmin; num_sub ymax ymin; num_sub zmax zmin])
    = Ok spans_max /\
    (clean_column
       (np_array [num_sub xmax xmin; num_sub ymax ymin; num_sub zmax zmin])
     = true ->
     is_max_of
       (np_array [num_sub xmax xmin; num_sub ymax ymin; num_sub zmax zmin])
       spans_max) /\
    axis_scaling xs ys zs
    = Ok (num_div spans_max (NFloat 2),
          num_mul (num_add xmax xmin) (NFloat 0.5),
          num_mul (num_add ymax ymin) (NFloat 0.5),
          num_mul (num_add zmax zmin) (NFloat 0.5)).
Proof.
  intros Nx Ny Nz Cx Cy Cz.
  destruct (np_max_is_max xs Nx Cx) as (xmax & Hxmax & Mx).
  destruct (np_min_is_min xs Nx Cx) as (xmin & Hxmin & mx).
  destruct (np_max_is_max ys Ny Cy) as (ymax & Hymax & My).
  destruct (np_min_is_min ys Ny Cy) as (ymin & Hymin & my).
  destruct (np_max_is_max zs Nz Cz) as (zmax & Hzmax & Mz).
  destruct (np_min_is_min zs Nz Cz) as (zmin & Hzmin & mz).
  destruct (np_max_array3 (num_sub xmax xmin) (num_sub ymax ymin)
              (num_sub zmax zmin)) as [spans_max Hspans].
  exists xmax, xmin, ymax, ymin, zmax, zmin, spans_max.
  split; [done|]. split; [done|]. split; [done|].
  split; [exact Hspans|]. split.
  - intros Hclean.
    assert (np_array [num_sub xmax xmin; num_sub ymax ymin; num_sub zmax zmin]
            <> []) as Hne.
    { intros Hnil. apply (f_equal length) in Hnil.
      rewrite np_array_length in Hnil. discriminate. }
    destruct (np_max_is_max _ Hne Hclean) as (m & Hm & Hmax).
    change (num_array [num_sub xmax xmin; num_sub ymax ymin; num_sub zmax zmin])
      with (np_array [num_sub xmax xmin; num_sub ymax ymin; num_sub zmax zmin])
      in Hspans.
    congruence.
  - unfold axis_scaling. rewrite Hxmax, Hxmin, Hymax, Hymin, Hzmax, Hzmin.
    unfold_monad. by rewrite Hspans.
Qed.


End AxisLimits.


(** ** Paths of the artifacts *)

Lemma string_app_cons x (a b : string) : String x a +:+ b = String x (a +:+ b).
Proof. reflexivity. Qed.

Lemma string_app_assoc (a b c : string) : (a +:+ b) +:+ c = a +:+ (b +:+ c).
Proof.
  induction a as [|x a IH]; [reflexivity|]. by rewrite !string_app_cons, IH.
Qed.

Lemma string_app_length (a b : string) :
  String.length (a +:+ b) = (String.length a + String.length b)%nat.
Proof.
  induction a as [|x a IH]; [reflexivity|].
  rewrite string_app_cons. cbn [String.length]. by rewrite IH.
Qed.

Lemma split_sep_no_sep e : no_sep e = true -> split_sep e = [e].
Proof.
  induction e as [|c e IH]; [reflexivity|]. cbn [no_sep split_sep].
  intros [Hc He]%andb_true_iff. apply negb_true_iff in Hc.
  by rewrite Hc, IH.
Qed.

(** Appending slash-free text to a string only extends its last segment. *)
Lemma split_sep_app rel :
  exists init l,
    split_sep rel = init ++ [l] /\
    forall e, no_sep e = true -> split_sep (rel +:+ e) = init ++ [l +:+ e].
Proof.
  induction rel as [|c rel (init & l & Hrel & Hext)].
  - exists [], "". split; [reflexivity|]. intros e He. by apply split_sep_no_sep.
  - cbn [split_sep]. destruct (is_sep c) eqn:Hc.
    + exists ("" :: init), l. split; [by rewrite Hrel|].
      intros e He. rewrite string_app_cons. cbn [split_sep].
      by rewrite Hc, Hext.
    + destruct init as [|i0 init].
      * exists [], (String c l). split; [by rewrite Hrel|].
        intros e He. rewrite string_app_cons. cbn [split_sep].
      by rewrite Hc, Hext.
      * exists (String c i0 :: init), l. split; [by rewrite Hrel|].
        intros e He. rewrite string_app_cons. cbn [split_sep].
      by rewrite Hc, Hext.
Qed.

Lemma is_extension_first e :
  is_extension e = true ->
  exists c e', e = String c e' /\ is_sep c = false /\ no_sep e = true /\
               (2 <= String.length e)%nat.
Proof.
  unfold is_extension. intros [Hn Hl%Nat.leb_le]%andb_true_iff.
  destruct e as [|c e']; [simpl in Hl; lia|].
  exists c, e'. repeat split; try assumption.
  cbn [no_sep] in Hn. apply andb_true_iff in Hn as [Hc _].
  by apply negb_true_iff in Hc.
Qed.

Lemma splitroot_app base e :
  is_extension e = true ->
  splitroot (base +:+ e) = (fst (splitroot base), snd (splitroot base) +:+ e).
Proof.
  intros (c & e' & -> & Hc & _)%is_extension_first.
  destruct base as [|c1 [|c2 [|c3 base]]];
    rewrite ?string_app_cons; change ("" +:+ String c e') with (String c e');
    cbn [splitroot fst snd].
  - by rewrite Hc.
  - destruct (is_sep c1); [by rewrite Hc | reflexivity].
  - destruct (is_sep c1), (is_sep c2); try reflexivity. by rewrite Hc.
  - destruct (is_sep c1), (is_sep c2), (is_sep c3); reflexivity.
Qed.

Lemma keep_part_extension l e :
  is_extension e = true -> keep_part (l +:+ e) = true.
Proof.
  intros (c & e' & -> & _ & _ & Hlen)%is_extension_first.
  unfold keep_part. apply andb_true_iff. split; apply negb_true_iff, String.eqb_neq;
    intros Heq; apply (f_equal String.length) in Heq;
    rewrite string_app_length in Heq; simpl in *; lia.
Qed.

Lemma join_parts_snoc parts x :
  join_parts (parts ++ [x])
  = match parts with
    | [] => x
    | _ :: _ => join_parts parts +:+ "/" +:+ x
    end.
Proof.
  destruct parts as [|y parts]; [reflexivity|].
  cbn [join_parts app]. by rewrite fold_left_app.
Qed.

(** The name and the text of a path whose joined segments end in an
    extension: both are a text fixed by what precedes the extension,
    followed by the extension. *)
Lemma path_with_extension base :
  exists stem text,
    forall (p : Path) e,
      is_extension e = true ->
      posix_join p = base +:+ e ->
      path_name p = stem +:+ e /\ path_str p = text +:+ e.
Proof.
  destruct (split_sep_app (snd (splitroot base))) as (init & l & Hrel & Hext).
  exists l.
  exists (fst (splitroot base) +:+
          match filter (fun x => keep_part x = true) init with
          | [] => l
          | _ :: _ =>
              join_parts (filter (fun x => keep_part x = true) init) +:+ "/" +:+ l
          end).
  intros p e He Hp.
  pose proof (is_extension_first e He) as (c & e' & _ & _ & Hn & Hlen).
  assert (path_parse p
          = (fst (splitroot base),
             filter (fun x => keep_part x = true) init ++ [l +:+ e])) as Hparse.
  { unfold path_parse. rewrite Hp, (splitroot_app base e He), (Hext e Hn).
    rewrite filter_app. f_equal. f_equal.
    rewrite filter_cons_True by (by apply keep_part_extension). reflexivity. }
  split.
  - unfold path_name. rewrite Hparse. cbn [snd]. apply last_last.
  - unfold path_str. rewrite Hparse. cbv beta iota zeta.
    rewrite join_parts_snoc.
    match goal with
    | |- (if String.eqb ?s "" then _ else _) = ?t => assert (s = t) as ->
    end.
    { destruct (filter _ init); by rewrite !string_app_assoc. }
    match goal with
    | |- (if String.eqb ?s "" then _ else _) = _ =>
        destruct (String.eqb_spec s "") as [Heq|]; [|reflexivity]
    end.
    apply (f_equal String.length) in Heq. rewrite string_app_length in Heq.
    simpl in Heq. lia.
Qed.

Lemma posix_join2_stem dir stem e :
  stem <> "" -> posix_join2 dir (stem +:+ e) = posix_join2 dir stem +:+ e.
Proof.
  destruct stem as [|c stem]; [congruence|]. intros _.
  unfold posix_join2. rewrite string_app_cons. cbn [starts_with_sep].
  destruct (is_sep c); [reflexivity|].
  destruct (String.eqb dir "" || ends_with_sep dir);
    by rewrite ?string_app_assoc.
Qed.

Lemma artifact_stem_nonempty id (n : string) : id +:+ "_" +:+ n <> "".
Proof. destruct id; discriminate. Qed.

(** The integer part of the timestamp. *)

Lemma py_int_truncates (x : Q) :
  (0 <= x -> inject_Z (py_int x) <= x /\ x < inject_Z (py_int x) + 1)%Q /\
  (x <= 0 -> inject_Z (py_int x) - 1 < x /\ x <= inject_Z (py_int x))%Q.
Proof.
  destruct x as [a d]. unfold py_int, Qle, Qlt. cbn [Qnum Qden].
  pose proof (Z.quot_rem' a (Z.pos d)) as Hqr.
  set (q := Z.quot a (Z.pos d)) in *. set (r := Z.rem a (Z.pos d)) in *.
  split; intros Hsign; cbn in Hsign.
  - assert (0 <= r < Z.pos d)%Z as Hr by (apply Z.rem_bound_pos; lia).
    cbn. split; nia.
  - assert (r <= 0 /\ - Z.pos d < r)%Z as Hr.
    { pose proof (Z.rem_bound_pos_neg a (Z.pos d) ltac:(lia) ltac:(lia)).
      subst r. lia. }
    cbn. split; nia.
Qed.

(** Decimal numerals hold no slash. *)

Lemma no_sep_app a b : no_sep (a +:+ b) = no_sep a && no_sep b.
Proof.
  induction a as [|c a IH]; [reflexivity|].
  rewrite string_app_cons. cbn [no_sep]. by rewrite IH, andb_assoc.
Qed.

Lemma pretty_N_char_no_sep x : is_sep (pretty_N_char x) = false.
Proof. unfold pretty_N_char. by repeat case_match. Qed.

Lemma pretty_N_go_no_sep x s :
  no_sep s = true -> no_sep (pretty_N_go x s) = true.
Proof.
  revert s. induction (N.lt_wf_0 x) as [x _ IH]; intros s Hs.
  assert (x = 0 \/ 0 < x)%N as [->|Hpos] by lia.
  - by rewrite pretty_N_go_0.
  - rewrite pretty_N_go_step by done. apply IH.
    + by apply N.div_lt.
    + cbn [no_sep]. by rewrite pretty_N_char_no_sep, Hs.
Qed.

Lemma pretty_Z_no_sep (n : Z) : no_sep (pretty n) = true.
Proof.
  assert (forall p : positive, no_sep (pretty p) = true) as Hpos.
  { intros p. unfold pretty, pretty_positive, pretty, pretty_N.
    case_decide; [reflexivity|]. by apply pretty_N_go_no_sep. }
  destruct n as [|p|p]; unfold pretty, pretty_Z.
  - reflexivity.
  - apply Hpos.
  - rewrite no_sep_app. by rewrite Hpos.
Qed.

(** A file directly under a directory. *)

Lemma split_sep_nonempty s : split_sep s <> [].
Proof.
  induction s as [|c s IH]; [discriminate|]. cbn [split_sep].
  destruct (is_sep c); [discriminate|]. by destruct (split_sep s).
Qed.

Lemma split_sep_under rel name :
  no_sep name = true ->
  split_sep (rel +:+ "/" +:+ name) = split_sep rel ++ [name].
Proof.
  intros Hname. induction rel as [|c rel IH].
  - change ("" +:+ "/" +:+ name) with (String "/" name).
    cbn [split_sep is_sep]. change (Ascii.eqb "/" "/") with true. cbv iota.
    by rewrite split_sep_no_sep.
  - rewrite string_app_cons. cbn [split_sep]. rewrite IH.
    destruct (is_sep c); [reflexivity|].
    pose proof (split_sep_nonempty rel).
    by destruct (split_sep rel).
Qed.

Lemma string_app_empty_r s : s +:+ "" = s.
Proof. induction s as [|c s IH]; [reflexivity|]. by rewrite string_app_cons, IH. Qed.

Lemma ends_with_sep_app a c b :
  ends_with_sep (a +:+ String c b) = ends_with_sep (String c b).
Proof.
  induction a as [|x a IH]; [reflexivity|].
  rewrite string_app_cons. cbn [ends_with_sep]. rewrite IH.
  destruct a; reflexivity.
Qed.

Lemma splitroot_under dir rest :
  dir <> "" -> ends_with_sep dir = false ->
  splitroot (dir +:+ rest) = (fst (splitroot dir), snd (splitroot dir) +:+ rest).
Proof.
  intros Hne Hend.
  destruct dir as [|c1 [|c2 [|c3 dir]]]; [congruence|..];
    rewrite ?string_app_cons; cbn [splitroot fst snd ends_with_sep] in *.
  - rewrite Hend. reflexivity.
  - destruct (is_sep c1); [|reflexivity]. rewrite Hend. reflexivity.
  - destruct (is_sep c1), (is_sep c2), (is_sep c3); reflexivity.
Qed.

Lemma splitroot_root dir :
  fst (splitroot dir) = "" \/ fst (splitroot dir) = "/" \/
  fst (splitroot dir) = "//".
Proof.
  destruct dir as [|c1 [|c2 [|c3 dir]]]; cbn [splitroot];
    repeat match goal with
           | |- context [is_sep ?c] => destruct (is_sep c)
           end; cbn [fst]; auto.
Qed.

Lemma path_under (dir name : string) :
  path_str (Path_of dir) = dir -> dir <> "." ->
  ends_with_sep dir = false ->
  no_sep name = true -> keep_part name = true ->
  path_str (path_div (Path_of dir) name) = dir +:+ "/" +:+ name /\
  path_name (path_div (Path_of dir) name) = name.
Proof.
  intros Hnormal Hdot Hend Hname Hkeep.
  assert (starts_with_sep name = false) as Hstart.
  { destruct name as [|c name]; [reflexivity|]. cbn [no_sep starts_with_sep] in *.
    apply andb_true_iff in Hname as [Hc _]. by apply negb_true_iff in Hc. }
  assert (dir <> "") as Hne.
  { intros ->. by apply Hdot. }
  assert (posix_join (path_div (Path_of dir) name) = dir +:+ "/" +:+ name)
    as Hjoin.
  { unfold path_div, Path_of. cbn [app posix_join fold_left].
    unfold posix_join2. rewrite Hstart, Hend.
    apply String.eqb_neq in Hne. by rewrite Hne. }
  unfold path_str, path_name, path_parse in *. rewrite Hjoin.
  change (posix_join (Path_of dir)) with dir in Hnormal.
  rewrite (splitroot_under dir ("/" +:+ name) Hne Hend).
  destruct (splitroot dir) as [root rel] eqn:Hsplit. cbn [fst snd].
  rewrite split_sep_under by assumption.
  rewrite filter_app, filter_cons_True by assumption.
  change (filter (fun x => keep_part x = true) []) with (@nil string).
  set (parts := filter (fun x => keep_part x = true) (split_sep rel)) in *.
  assert (root +:+ join_parts parts = dir) as Hdir.
  { destruct (String.eqb (root +:+ join_parts parts) ""); congruence. }
  rewrite join_parts_snoc, List.last_last. split; [|reflexivity].
  destruct parts as [|p0 parts'].
  - exfalso. cbn [join_parts] in Hdir. rewrite string_app_empty_r in Hdir.
    pose proof (splitroot_root dir) as Hroot. rewrite Hsplit in Hroot.
    cbn [fst] in Hroot. subst dir.
    destruct Hroot as [->|[->| ->]]; [congruence | discriminate | discriminate].
  - rewrite <- string_app_assoc, Hdir.
    destruct (String.eqb_spec (dir +:+ "/" +:+ name) "") as [Heq|];
      [|reflexivity].
    destruct dir; [congruence | discriminate].
Qed.

Lemma artifact_name_plain id (n : Z) e :
  no_sep id = true -> is_extension e = true ->
  no_sep (id +:+ "_" +:+ pretty n +:+ e) = true /\
  keep_part (id +:+ "_" +:+ pretty n +:+ e) = true.
Proof.
  intros Hid He. split.
  - rewrite !no_sep_app, Hid, pretty_Z_no_sep.
    apply is_extension_first in He as (_ & _ & _ & _ & -> & _). reflexivity.
  - rewrite <- !string_app_assoc. by apply keep_part_extension.
Qed.

(** ** The orchestrator *)

Section Main.

Context {A : Type} `{Numeric A} (E : env A).

Lemma mbind_ok {X Y} (m : M A X) (k : X -> M A Y) w x w1 :
  m w = (Ok x, w1) -> (m ≫= k) w = k x w1.
Proof. intros Hm. unfold_monad. by rewrite Hm. Qed.

Lemma mbind_raise {X Y} (m : M A X) (k : X -> M A Y) w e w1 :
  m w = (Raise e, w1) -> (m ≫= k) w = (Raise e, w1).
Proof. intros Hm. unfold_monad. by rewrite Hm. Qed.

Lemma only_artifacts_refl L P (w : world A) : only_artifacts L P w w.
Proof. exists []. split; [by rewrite app_nil_r | constructor]. Qed.

Lemma only_artifacts_trans L P (w1 w2 w3 : world A) :
  only_artifacts L P w1 w2 -> only_artifacts L P w2 w3 ->
  only_artifacts L P w1 w3.
Proof.
  intros (evs1 & Ht1 & Hok1) (evs2 & Ht2 & Hok2).
  exists (evs1 ++ evs2). split.
  - by rewrite Ht2, Ht1, app_assoc.
  - apply Forall_app. by split.
Qed.

Lemma only_artifacts_events L P (w : world A) files evs hs n :
  Forall (writes_only_to L P) evs ->
  only_artifacts L P w (mkWorld files hs n (trace w ++ evs)).
Proof. intros Hev. by exists evs. Qed.

Lemma stays_within_bind {X Y} L P (m : M A X) (k : X -> M A Y) :
  stays_within L P m -> (forall x, stays_within L P (k x)) ->
  stays_within L P (m ≫= k).
Proof.
  intros Hm Hk w r w'. unfold_monad.
  destruct (m w) as [[x|e] w1] eqn:Hmw.
  - intros Hkw. eapply only_artifacts_trans; [by eapply Hm | by eapply Hk].
  - intros [= _ <-]. by eapply Hm.
Qed.

Lemma stays_within_log L P bound level msg fields :
  stays_within L P (log_call (A:=A) bound level msg fields).
Proof.
  intros w r w' [= _ <-]. apply only_artifacts_events. by repeat constructor.
Qed.

Lemma stays_within_now L P : stays_within L P (now E).
Proof.
  intros w r w' [= _ <-]. exists []. split; [by rewrite app_nil_r | constructor].
Qed.

Lemma stays_within_load_output_data L P simulation :
  stays_within L P (load_output_data E simulation).
Proof.
  intros w r w' ->%load_output_data_world. apply only_artifacts_refl.
Qed.

Lemma stays_within_run_simulation P simulation binary_path (p : Path) :
  stays_within (path_str p) P (run_simulation E simulation binary_path p).
Proof.
  intros w r w'.
  destruct (writable E (path_str p)) eqn:Hw.
  - destruct (exec E [binary_path; "run"; "--target"; entrypoint simulation])
      as [c|] eqn:Hx.
    + rewrite (run_simulation_started E simulation binary_path p w c Hw Hx).
      intros [= _ <-]. apply only_artifacts_events. by repeat constructor.
    + rewrite (run_simulation_not_started E simulation binary_path p w Hw Hx).
      intros [= _ <-]. apply only_artifacts_events. by repeat constructor.
  - rewrite (run_simulation_unwritable E simulation binary_path p w Hw).
    intros [= _ <-]. apply only_artifacts_refl.
Qed.

Lemma stays_within_plot_trajectory L (df : DataFrame A) (p : Path) :
  stays_within L (path_str p) (plot_trajectory E df p).
Proof.
  intros w r w'.
  destruct (plot_trajectory_world E df p w) as [[fig ->] | [e ->]].
  - unfold savefig. destruct (writable E (path_str p)).
    + intros [= _ <-]. apply only_artifacts_events. by repeat constructor.
    + intros [= _ <-]. apply only_artifacts_refl.
  - intros [= _ <-]. apply only_artifacts_refl.
Qed.

(** C7.  When the index loads and holds no descriptor of the requested id,
    [main] logs one record at error severity and then raises [ValueError].
    Nothing else happens: after the reading of the index the log record is
    the only event (no child is started, no file is opened for writing, no
    figure is saved), the clock is not read, and no file changes. *)
Theorem main_simulation_not_found (args : Args) (w w1 : world A) index :
  load_index E w = (Ok index, w1) ->
  get_simulation index (arg_simulation_id args) = None ->
  main E args w
  = (Raise (ValueError ("Simulation '" +:+ arg_simulation_id args +:+ "' not found.")),
     mkWorld (fs w) (handles w) (ticks w)
       (trace w ++ [ EvOpen "index.json" "r"; EvClose "index.json";
                     EvLog ERROR "Simulation with provided id not found."
                       [("simulation_id", LStr (arg_simulation_id args))] ])).
Proof.
  intros Hload Hget.
  pose proof (load_index_ok_world E w w1 index Hload) as ->.
  unfold main. cbv zeta. rewrite (mbind_ok _ _ _ _ _ Hload). rewrite Hget.
  unfold log_call, emit, after_index_read. unfold_monad. cbn [fs handles ticks trace].
  by rewrite <- app_assoc.
Qed.

Lemma run_artifacts_joined (args : Args) (start_ts : Q) :
  exists base,
    posix_join (fst (run_artifacts args start_ts)) = base +:+ ".log" /\
    posix_join (snd (run_artifacts args start_ts)) = base +:+ ".png".
Proof.
  exists (posix_join2 (arg_output_dir args)
            (arg_simulation_id args +:+ "_" +:+ pretty (py_int start_ts))).
  unfold run_artifacts, path_div, Path_of. cbn [fst snd app posix_join fold_left].
  rewrite <- !posix_join2_stem by apply artifact_stem_nonempty.
  by rewrite !string_app_assoc.
Qed.

Lemma main_resolved (args : Args) (w w1 : world A) index simulation :
  load_index E w = (Ok index, w1) ->
  get_simulation index (arg_simulation_id args) = Some simulation ->
  main E args w
  = (run_simulation E simulation (arg_fpm_binary_path args)
       (fst (run_artifacts args (clock E (ticks w)))) ≫= (fun _ =>
     now E ≫= (fun end_ts =>
     log_call (arg_simulation_id args) INFO "Simulation finished."
       [ ("duration_seconds", LNum (py_round2 (end_ts - clock E (ticks w))));
         ("log_file",
          LStr (path_name (fst (run_artifacts args (clock E (ticks w)))))) ]
     ≫= (fun _ =>
     load_output_data E simulation ≫= (fun df =>
     match output_type simulation with
     | TRAJECTORY =>
         plot_trajectory E df (snd (run_artifacts args (clock E (ticks w))))
         ≫= (fun _ =>
         log_call (arg_simulation_id args) INFO "Plot saved."
           [ ("path",
              LStr (path_name (snd (run_artifacts args (clock E (ticks w)))))) ])
     end)))))
      (before_run (arg_simulation_id args) w).
Proof.
  intros Hload Hget.
  pose proof (load_index_ok_world E w w1 index Hload) as ->.
  unfold main. cbv zeta. rewrite (mbind_ok _ _ _ _ _ Hload). rewrite Hget.
  erewrite mbind_ok by reflexivity.
  cbn [ticks after_index_read].
  destruct (run_artifacts args (clock E (ticks w))) as [l p]. cbn [fst snd].
  erewrite mbind_ok by reflexivity.
  unfold before_run, after_index_read. cbn [fs handles ticks trace].
  by rewrite <- app_assoc.
Qed.


Lemma main_until_load (args : Args) (w w1 : world A) index simulation c :
  load_index E w = (Ok index, w1) ->
  get_simulation index (arg_simulation_id args) = Some simulation ->
  writable E (path_str (fst (run_artifacts args (clock E (ticks w))))) = true ->
  exec E [arg_fpm_binary_path args; "run"; "--target"; entrypoint simulation]
  = Some c ->
  returncode c = 0%Z ->
  main E args w
  = (load_output_data E simulation ≫= (fun df =>
     match output_type simulation with
     | TRAJECTORY =>
         plot_trajectory E df (snd (run_artifacts args (clock E (ticks w))))
         ≫= (fun _ =>
         log_call (arg_simulation_id args) INFO "Plot saved."
           [ ("path",
              LStr (path_name (snd (run_artifacts args (clock E (ticks w)))))) ])
     end))
      (mkWorld
         (files_after_run
            (path_str (fst (run_artifacts args (clock E (ticks w))))) c (fs w))
         (handles w) (S (S (ticks w)))
         (trace w ++
          [ EvOpen "index.json" "r"; EvClose "index.json";
            EvLog INFO "Running simulation."
              [("simulation_id", LStr (arg_simulation_id args))];
            EvOpen (path_str (fst (run_artifacts args (clock E (ticks w))))) "w";
            EvExec [arg_fpm_binary_path args; "run"; "--target";
                    entrypoint simulation];
            EvClose (path_str (fst (run_artifacts args (clock E (ticks w)))));
            EvLog INFO "Simulation finished."
              [ ("simulation_id", LStr (arg_simulation_id args));
                ("duration_seconds",
                 LNum (py_round2 (clock E (S (ticks w)) - clock E (ticks w))));
                ("log_file",
                 LStr (path_name
                         (fst (run_artifacts args (clock E (ticks w)))))) ] ])).
Proof.
  intros Hload Hget Hw Hx Hrc.
  rewrite (main_resolved args w w1 index simulation Hload Hget).
  erewrite mbind_ok.
  2: { rewrite (run_simulation_started E simulation _ _ _ c Hw Hx).
       rewrite Hrc. reflexivity. }
  erewrite mbind_ok by reflexivity.
  erewrite mbind_ok by reflexivity.
  unfold after_run, before_run. cbn [fs handles ticks trace].
  by rewrite <- !app_assoc.
Qed.


(** What [main] does after the record of the finished simulation. *)
Lemma main_tail_world (id : string) simulation (p : Path) (w : world A) :
  let tail :=
    load_output_data E simulation ≫= (fun df =>
    match output_type simulation with
    | TRAJECTORY =>
        plot_trajectory E df p ≫= (fun _ =>
        log_call id INFO "Plot saved." [ ("path", LStr (path_name p)) ])
    end) in
  (exists e, tail w = (Raise e, w)) \/
  (exists fig,
      writable E (path_str p) = true /\
      tail w
      = (Ok tt,
         mkWorld (<[path_str p := render E fig]> (fs w)) (handles w) (ticks w)
           (trace w ++
            [ EvSaveFig (path_str p) fig;
              EvLog INFO "Plot saved."
                [ ("simulation_id", LStr id); ("path", LStr (path_name p)) ] ]))).
Proof.
  intros tail. subst tail.
  destruct (load_output_data E simulation w) as [[df|e] w2] eqn:Hload.
  2: { pose proof (load_output_data_world E simulation w _ _ Hload) as ->.
       left. exists e. by erewrite mbind_raise. }
  pose proof (load_output_data_world E simulation w _ _ Hload) as ->.
  erewrite mbind_ok by eassumption.
  destruct (output_type simulation).
  destruct (plot_trajectory_world E df p w) as [[fig Hplot] | [e Hplot]].
  - destruct (writable E (path_str p)) eqn:Hw.
    + right. exists fig. split; [reflexivity|].
      erewrite mbind_ok.
      2: { rewrite Hplot. unfold savefig. rewrite Hw. reflexivity. }
      unfold log_call, emit. cbn [fs handles ticks trace].
      by rewrite <- app_assoc.
    + left. eexists. erewrite mbind_raise; [reflexivity|].
      rewrite Hplot. unfold savefig. by rewrite Hw.
  - left. exists e. by erewrite mbind_raise.
Qed.


(** What a run that found its descriptor leaves behind. *)
Lemma main_outcome (args : Args) (w w1 : world A) index simulation :
  load_index E w = (Ok index, w1) ->
  get_simulation index (arg_simulation_id args) = Some simulation ->
  let start_ts := clock E (ticks w) in
  let log_path := path_str (fst (run_artifacts args start_ts)) in
  let plot_path := path_str (snd (run_artifacts args start_ts)) in
  let argv := [arg_fpm_binary_path args; "run"; "--target"; entrypoint simulation] in
  let began := before_run (arg_simulation_id args) w in
  (writable E log_path = false /\
   main E args w = (Raise (FileNotFoundError log_path), began)) \/
  (writable E log_path = true /\
   exists evs files,
     trace (snd (main E args w)) = trace began ++ EvOpen log_path "w" :: evs /\
     fs (snd (main E args w)) = files /\
     is_Some (files !! log_path) /\
     ((exists e, fst (main E args w) = Raise e) \/
      exists c fig,
        exec E argv = Some c /\ returncode c = 0%Z /\
        writable E plot_path = true /\
        main E args w
        = (Ok tt,
           mkWorld
             (<[plot_path := render E fig]> (files_after_run log_path c (fs w)))
             (handles w) (S (S (ticks w)))
             (trace began ++
              [ EvOpen log_path "w"; EvExec argv; EvClose log_path;
                EvLog INFO "Simulation finished."
                  [ ("simulation_id", LStr (arg_simulation_id args));
                    ("duration_seconds",
                     LNum (py_round2 (clock E (S (ticks w)) - start_ts)));
                    ("log_file",
                     LStr (path_name (fst (run_artifacts args start_ts)))) ];
                EvSaveFig plot_path fig;
                EvLog INFO "Plot saved."
                  [ ("simulation_id", LStr (arg_simulation_id args));
                    ("path",
                     LStr (path_name (snd (run_artifacts args start_ts)))) ]
              ])))).
Proof.
  intros Hload Hget start_ts log_path plot_path argv began.
  assert (log_path <> plot_path) as Hdiff.
  { subst log_path plot_path.
    destruct (run_artifacts_joined args start_ts) as (base & Hlog & Hplot).
    destruct (path_with_extension base) as (stem & text & Hext).
    destruct (Hext _ ".log" eq_refl Hlog) as [_ ->].
    destruct (Hext _ ".png" eq_refl Hplot) as [_ ->].
    intros Heq. apply (inj (String.app _)) in Heq. discriminate. }
  pose proof (main_resolved args w w1 index simulation Hload Hget) as Hmain.
  fold start_ts in Hmain.
  destruct (writable E log_path) eqn:Hw.
  2: { left. split; [reflexivity|]. rewrite Hmain.
       erewrite mbind_raise; [reflexivity|].
       by apply run_simulation_unwritable. }
  right. split; [reflexivity|].
  destruct (exec E argv) as [c|] eqn:Hx.
  2: { rewrite Hmain. erewrite mbind_raise.
       2: { by apply run_simulation_not_started. }
       cbn [snd fst trace fs]. eexists _, _. split; [|split; [reflexivity|split]].
       - unfold began, before_run; cbn [trace]; rewrite <- ?app_assoc;
           reflexivity.
       - unfold files_after_run. rewrite lookup_insert_eq. by eexists.
       - left. by eexists. }
  destruct (Z.eqb_spec (returncode c) 0) as [Hrc|Hrc].
  2: { rewrite Hmain. erewrite mbind_raise.
       2: { rewrite (run_simulation_started E simulation _ _ _ c Hw Hx).
            apply Z.eqb_neq in Hrc. rewrite Hrc. reflexivity. }
       unfold after_run. cbn [snd fst trace fs].
       eexists _, _. split; [|split; [reflexivity|split]].
       - unfold began, before_run; cbn [trace]; rewrite <- ?app_assoc;
           reflexivity.
       - unfold files_after_run. rewrite lookup_insert_eq. by eexists.
       - left. by eexists. }
  rewrite (main_until_load args w w1 index simulation c Hload Hget Hw Hx Hrc).
  fold start_ts. fold log_path. fold argv.
  match goal with
  | |- context [(load_output_data E simulation ≫= ?k) ?w2] =>
      destruct (main_tail_world (arg_simulation_id args) simulation
                  (snd (run_artifacts args start_ts)) w2)
        as [[e Htail] | (fig & Hwp & Htail)]
  end.
  - cbv zeta in Htail. rewrite Htail. cbn [snd fst trace fs].
    eexists _, _. split; [|split; [reflexivity|split]].
    + unfold began, before_run. cbn [trace]. rewrite <- !app_assoc. reflexivity.
    + unfold files_after_run. rewrite lookup_insert_eq. by eexists.
    + left. by eexists.
  - cbv zeta in Htail. rewrite Htail. cbn [snd fst trace fs handles ticks].
    fold plot_path.
    eexists _, _. split; [|split; [reflexivity|split]].
    + unfold began, before_run. cbn [trace]. rewrite <- !app_assoc. reflexivity.
    + rewrite lookup_insert_ne by congruence. unfold files_after_run.
      rewrite lookup_insert_eq.
      by eexists.
    + right. exists c, fig. split; [reflexivity|]. split; [assumption|].
      split; [assumption|]. f_equal. f_equal.
      unfold began, before_run. cbn [trace]. rewrite <- !app_assoc. reflexivity.
Qed.



End Main.



(** ** The theorems on the sample run *)

Lemma run_simulation_raises_iff_nonzero_exit_witness :
  fst (run_simulation (sample_env sample_columns (Some failing_child))
         sample_simulation "fpm" (Path_of "out.log") sample_world)
  = Raise (CalledProcessError 2 ["fpm"; "run"; "--target"; "orbit"]) /\
  fs (snd (run_simulation (sample_env sample_columns (Some failing_child))
             sample_simulation "fpm" (Path_of "out.log") sample_world))
    !! "out.log" = Some (list_byte_of_string "step 1").
Proof.
  destruct (run_simulation_raises_iff_nonzero_exit
              (sample_env sample_columns (Some failing_child))
              sample_simulation "fpm" (Path_of "out.log") sample_world
              failing_child eq_refl eq_refl) as (_ & Hraise & Hfile & _).
  split; [apply Hraise; discriminate | exact Hfile].
Defined.

Lemma load_output_data_three_columns_witness :
  load_output_data (sample_env sample_columns None) sample_simulation sample_world
  = (Ok sample_table, sample_world).
Proof.
  exact (proj1 (proj2 (load_output_data_three_columns
                         (sample_env sample_columns None) sample_simulation
                         sample_world [] [NInt 0; NInt 1; NInt 2] [NInt 0; NInt 1; NInt 0] [NInt 0; NInt 1; NInt 2] 3
                         eq_refl eq_refl eq_refl eq_refl eq_refl))).
Defined.

(** C5, as stated, fails on a file of four columns: the table returned has
    four columns, [column_4] besides [x], [y], [z]. *)
Lemma load_output_data_four_columns :
  exists df,
    load_output_data
      (sample_env [[NInt 0; NInt 1]; [NInt 0; NInt 1]; [NInt 0; NInt 1];
       [NInt 5; NInt 6]] None)
      sample_simulation sample_world
    = (Ok df, sample_world) /\
    columns df = ["x"; "y"; "z"; "column_4"] /\
    columns df <> ["x"; "y"; "z"].
Proof.
  eexists. split; [reflexivity|]. split; [reflexivity | discriminate].
Qed.

Lemma load_output_data_keeps_all_columns_witness :
  exists df,
    load_output_data
      (sample_env [[NInt 0; NInt 1]; [NInt 0; NInt 1]; [NInt 0; NInt 1];
       [NInt 5; NInt 6]] None)
      sample_simulation sample_world
    = (Ok df, sample_world) /\
    length df = 4%nat.
Proof.
  destruct (load_output_data_keeps_all_columns
              (sample_env [[NInt 0; NInt 1]; [NInt 0; NInt 1]; [NInt 0; NInt 1];
       [NInt 5; NInt 6]] None)
              sample_simulation sample_world []
              [[NInt 0; NInt 1]; [NInt 0; NInt 1]; [NInt 0; NInt 1];
       [NInt 5; NInt 6]]
              eq_refl eq_refl ltac:(simpl; lia))
    as (df & Hload & Hlen & _).
  exists df. split; [exact Hload | exact Hlen].
Defined.

Lemma load_index_round_trip_witness :
  load_index (sample_env sample_columns None) sample_world
  = (Ok (mkSimulationIndex [sample_simulation]), after_index_read sample_world).
Proof.
  refine (proj1 (proj1 (load_index_round_trip
                          (sample_env sample_columns None) sample_world)
                   [] [("simulations", PList [Simulation_to_json sample_simulation])]
                   [Simulation_to_json sample_simulation] [sample_simulation]
                   eq_refl eq_refl eq_refl _ _)).
  - constructor; [|constructor]. eexists. split; [reflexivity|].
    repeat split.
  - constructor; [|constructor]. repeat split; discriminate.
Defined.

Lemma main_simulation_not_found_witness :
  fst (main (sample_env sample_columns None) (mkArgs "nope" "fpm" "output")
         sample_world)
  = Raise (ValueError "Simulation 'nope' not found.") /\
  fs (snd (main (sample_env sample_columns None) (mkArgs "nope" "fpm" "output")
             sample_world))
  = fs sample_world.
Proof.
  rewrite (main_simulation_not_found (sample_env sample_columns None)
             (mkArgs "nope" "fpm" "output") sample_world
             (after_index_read sample_world)
             (mkSimulationIndex [sample_simulation]) eq_refl eq_refl).
  split; reflexivity.
Defined.

Lemma load_output_data_needs_three_columns_witness :
  load_output_data (sample_env [[NInt 0; NInt 1]; [NInt 0; NInt 1]] None) sample_simulation
    sample_world
  = (Raise (ColumnNotFoundError "column_3"), sample_world).
Proof.
  exact (proj1 (load_output_data_needs_three_columns
                  (sample_env [[NInt 0; NInt 1]; [NInt 0; NInt 1]] None) sample_simulation
                  sample_world)
           [] [[NInt 0; NInt 1]; [NInt 0; NInt 1]] eq_refl eq_refl ltac:(simpl; lia)).
Defined.



Lemma plot_trajectory_markers_witness :
  fst (plot_trajectory (sample_env [] None)
         [("x", [NInt 1]); ("y", [NInt 2]); ("z", [NInt 3])]
         (Path_of "plot.png") sample_world)
  = Ok tt.
Proof.
  destruct (plot_trajectory_markers (sample_env [] None)
              [("x", [NInt 1]); ("y", [NInt 2]); ("z", [NInt 3])]
              (Path_of "plot.png") sample_world [NInt 1] [NInt 2] [NInt 3]
              eq_refl eq_refl eq_refl ltac:(simpl; lia) eq_refl eq_refl)
    as (x0 & y0 & z0 & x1 & y1 & z1 & max_range & mid_x & mid_y & mid_z
        & _ & _ & _ & _ & Hs & _ & _ & _ & Hok & _).
  vm_compute in Hs. injection Hs as Hr Hx Hy Hz. subst max_range mid_x mid_y mid_z.
  rewrite (Hok eq_refl eq_refl). reflexivity.
Defined.

(** * Further properties *)

(** ** Lookup in the index *)

Lemma get_simulation_loop_app l1 l2 q :
  get_simulation_loop (l1 ++ l2) q
  = match get_simulation_loop l1 q with
    | Some s => Some s
    | None => get_simulation_loop l2 q
    end.
Proof.
  induction l1 as [|d l1 IH]; [reflexivity|]. cbn [app get_simulation_loop].
  destruct (String.eqb (simulation_id d) q); [reflexivity | exact IH].
Qed.

(** X1.  Lookup in two lists put one after the other is lookup in the first
    and, only when that finds nothing, lookup in the second: a descriptor of
    the second list is shadowed by any descriptor of the first with its
    id. *)
Theorem get_simulation_concat (l1 l2 : list Simulation) (q : string) :
  get_simulation (mkSimulationIndex (l1 ++ l2)) q
  = match get_simulation (mkSimulationIndex l1) q with
    | Some s => Some s
    | None => get_simulation (mkSimulationIndex l2) q
    end.
Proof. unfold get_simulation. cbn [simulations]. apply get_simulation_loop_app. Qed.

(** X2.  In an index whose ids are pairwise distinct, looking up the id of a
    descriptor of the index returns that very descriptor. *)
Theorem get_simulation_unique_ids (index : SimulationIndex) (s : Simulation) :
  NoDup (map simulation_id (simulations index)) ->
  In s (simulations index) ->
  get_simulation index (simulation_id s) = Some s.
Proof.
  unfold get_simulation. destruct index as [sims]. cbn [simulations].
  induction sims as [|d rest IH]; intros Hnd Hin; [destruct Hin|].
  cbn [map] in Hnd. apply NoDup_cons in Hnd as [Hd Hnd].
  cbn [get_simulation_loop].
  destruct (String.eqb (simulation_id d) (simulation_id s)) eqn:Heq.
  - apply String.eqb_eq in Heq. destruct Hin as [->|Hin]; [reflexivity|].
    exfalso. apply Hd. rewrite Heq. apply list_elem_of_In. by apply in_map.
  - apply String.eqb_neq in Heq. destruct Hin as [->|Hin]; [congruence|].
    by apply IH.
Qed.

Lemma get_simulation_unique_ids_witness :
  get_simulation
    (mkSimulationIndex
       [ sample_simulation;
         mkSimulation "orbit2" "Second" "orbit2" TRAJECTORY "b.csv" 3 "" ])
    "orbit2"
  = Some (mkSimulation "orbit2" "Second" "orbit2" TRAJECTORY "b.csv" 3 "").
Proof.
  apply (get_simulation_unique_ids
           (mkSimulationIndex
              [ sample_simulation;
                mkSimulation "orbit2" "Second" "orbit2" TRAJECTORY "b.csv" 3 "" ])
           (mkSimulation "orbit2" "Second" "orbit2" TRAJECTORY "b.csv" 3 "")).
  - cbn. repeat constructor; rewrite ?list_elem_of_In; simpl; intuition discriminate.
  - right. left. reflexivity.
Defined.

(** ** What a loaded index holds *)

Lemma validate_int_some lax v z : validate_int lax v = Ok z -> v <> None.
Proof. by destruct v. Qed.

Lemma validate_Simulation_read lax v s :
  validate_Simulation lax v = Ok s ->
  exists items, v = PDict items /\ read_from lax items s /\ constraints_ok s.
Proof.
  intros Hv. destruct v as [| | | | | |items]; try discriminate Hv.
  exists items. split; [reflexivity|].
  pose proof (validate_Simulation_ok lax items s Hv)
    as (Hid & Hname & Hentry & Htype & Hpath & Hdesc & Hc).
  split; [|exact Hc].
  unfold read_from. destruct (output_type s). cbn [enum_value].
  repeat split; try assumption.
  revert Hv. unfold validate_Simulation. unfold_monad.
  destruct (validate_str 1 (dict_get "id" items)); [|discriminate].
  destruct (validate_str 1 (dict_get "name" items)); [|discriminate].
  destruct (validate_str 1 (dict_get "entrypoint" items)); [|discriminate].
  destruct (validate_output_type (dict_get "output_type" items)); [|discriminate].
  destruct (validate_str 1 (dict_get "output_path" items)); [|discriminate].
  destruct (validate_int lax (dict_get "dimensions" items)); [|discriminate].
  destruct (validate_str 0 (dict_get "description" items)); [|discriminate].
  by intros [= <-].
Qed.

Lemma validate_list_read lax docs sims :
  validate_list lax docs = Ok sims ->
  Forall2 (fun d s => exists items,
               d = PDict items /\ read_from lax items s /\ constraints_ok s)
    docs sims.
Proof.
  revert sims. induction docs as [|d docs IH]; intros sims.
  - intros [= <-]. constructor.
  - cbn [validate_list]. unfold_monad.
    destruct (validate_Simulation lax d) as [s|] eqn:Hd; [|discriminate].
    fold (validate_list lax docs).
    destruct (validate_list lax docs) as [ss|] eqn:Hl; [|discriminate].
    intros [= <-]. constructor; [by apply validate_Simulation_read | by apply IH].
Qed.

Lemma validate_list_invalid lax docs :
  Exists (fun d => forall s, validate_Simulation lax d <> Ok s) docs ->
  validate_list lax docs = Raise ValidationError.
Proof.
  induction 1 as [d docs Hd | d docs _ IH]; cbn [validate_list]; unfold_monad.
  - destruct (validate_Simulation lax d) as [s|e] eqn:Hs; [by destruct (Hd s)|].
    f_equal. by eapply validate_Simulation_raises.
  - destruct (validate_Simulation lax d) as [s|e] eqn:Hs.
    + fold (validate_list lax docs). by rewrite IH.
    + f_equal. by eapply validate_Simulation_raises.
Qed.

Lemma lacks_field_invalid lax d s :
  lacks_field d -> validate_Simulation lax d <> Ok s.
Proof.
  intros Hl Hv.
  apply validate_Simulation_read in Hv
    as (items & -> & (Hid & Hname & Hentry & Htype & Hpath & Hdim & Hdesc) & _).
  destruct Hl as (f & Hf & Hnone). apply validate_int_some in Hdim.
  unfold field_keys in Hf. simpl in Hf.
  destruct Hf as [<-|[<-|[<-|[<-|[<-|[<-|[<-|[]]]]]]]]; congruence.
Qed.

Section LoadIndexMore.

Context {A : Type} (E : env A).

(** X3.  Whatever index [load_index] returns was read from the file: the
    decoded document is an object whose [simulations] array has one dict
    per descriptor, in order, and each descriptor has the strings and the
    enum value found under [id], [name], [entrypoint], [output_type],
    [output_path] and [description] of its dict, and meets the field
    constraints (the four constrained strings are not empty). *)
Theorem load_index_sound (w w' : world A) (index : SimulationIndex) :
  load_index E w = (Ok index, w') ->
  exists bytes kwargs docs,
    fs w !! "index.json" = Some bytes /\
    json_loads E bytes = Some (PDict kwargs) /\
    dict_get "simulations" kwargs = Some (PList docs) /\
    Forall2 (fun d s => exists items,
                 d = PDict items /\ read_from (lax_int E) items s /\
                 constraints_ok s)
      docs (simulations index).
Proof.
  unfold load_index. unfold_monad.
  destruct (fs w !! "index.json") as [bytes|] eqn:Hf.
  2: { rewrite (read_index_file_missing E w Hf). discriminate. }
  rewrite (read_index_file_present E w bytes Hf).
  destruct (json_loads E bytes) as [v|] eqn:Hj; [|discriminate].
  destruct v as [| | | | | |kwargs]; try discriminate.
  unfold validate_SimulationIndex. unfold_monad.
  destruct (dict_get "simulations" kwargs) as [[| | | | |docs|]|] eqn:Hs;
    try discriminate.
  destruct (validate_list (lax_int E) docs) as [sims|] eqn:Hl; [|discriminate].
  intros [= <- _]. exists bytes, kwargs, docs.
  repeat split; try assumption. by apply validate_list_read.
Qed.

(** X4.  Every field is required, and [simulation_id] is read under the key
    [id] only: when an element of [simulations] is no object, or an object
    that lacks one of the seven keys, [load_index] raises a validation
    error (and the index file is closed again). *)
Theorem load_index_missing_field (w : world A) bytes kwargs docs :
  fs w !! "index.json" = Some bytes ->
  json_loads E bytes = Some (PDict kwargs) ->
  dict_get "simulations" kwargs = Some (PList docs) ->
  Exists lacks_field docs ->
  load_index E w = (Raise ValidationError, after_index_read w).
Proof.
  intros Hf Hj Hs Hl.
  rewrite (load_index_decoded E w bytes kwargs Hf Hj).
  unfold validate_SimulationIndex. rewrite Hs. unfold_monad.
  rewrite validate_list_invalid; [reflexivity|].
  eapply Exists_impl; [exact Hl|]. intros d Hd s. by apply lacks_field_invalid.
Qed.

(** X5.  A document of the wrong shape: when [index.json] decodes to
    something that is no object, unpacking it raises [TypeError]; when it is
    an object without a [simulations] key, or with one that holds no array,
    validation fails. *)
Theorem load_index_wrong_shape (w : world A) bytes :
  fs w !! "index.json" = Some bytes ->
  (forall v,
      json_loads E bytes = Some v ->
      (forall kwargs, v <> PDict kwargs) ->
      load_index E w = (Raise TypeError, after_index_read w)) /\
  (forall kwargs,
      json_loads E bytes = Some (PDict kwargs) ->
      (forall docs, dict_get "simulations" kwargs <> Some (PList docs)) ->
      load_index E w = (Raise ValidationError, after_index_read w)).
Proof.
  intros Hf. split.
  - intros v Hj Hv. unfold load_index. unfold_monad.
    rewrite (read_index_file_present E w bytes Hf), Hj.
    destruct v; try reflexivity. by destruct (Hv items).
  - intros kwargs Hj Hs.
    rewrite (load_index_decoded E w bytes kwargs Hf Hj).
    unfold validate_SimulationIndex.
    destruct (dict_get "simulations" kwargs) as [[| | | | |docs|]|];
      try reflexivity.
    by destruct (Hs docs).
Qed.

End LoadIndexMore.

(** ** Failures before the child runs *)

Section RunSimulationMore.

Context {A : Type} (E : env A).

(** X6.  [run_simulation] opens the output file before it starts the child.
    When the file cannot be opened, no child is started and nothing
    changes.  When the file opens and the program cannot be started, the
    error of the launch is raised, the file object is closed again, and the
    output file is left empty: what it held before is lost. *)
Theorem run_simulation_without_child
    simulation binary_path (p : Path) (w : world A) :
  (writable E (path_str p) = false ->
   run_simulation E simulation binary_path p w
   = (Raise (FileNotFoundError (path_str p)), w)) /\
  (writable E (path_str p) = true ->
   exec E [binary_path; "run"; "--target"; entrypoint simulation] = None ->
   let out := run_simulation E simulation binary_path p w in
   fst out = Raise (FileNotFoundError binary_path) /\
   fs (snd out) !! path_str p = Some [] /\
   (forall q, q <> path_str p -> fs (snd out) !! q = fs w !! q) /\
   handles (snd out) = handles w /\
   trace (snd out)
   = trace w ++ [EvOpen (path_str p) "w"; EvClose (path_str p)]).
Proof.
  split.
  - apply run_simulation_unwritable.
  - intros Hw Hx out. subst out.
    rewrite (run_simulation_not_started E simulation binary_path p w Hw Hx).
    cbn [fst snd fs handles trace]. repeat split.
    + apply lookup_insert_eq.
    + intros q Hq. by apply lookup_insert_ne.
Qed.

End RunSimulationMore.

(** ** Tables that cannot be plotted *)

Section PlotTrajectoryMore.

Context {A : Type} `{Numeric A} (E : env A).

Lemma df_getitem_missing (df : DataFrame A) c :
  has_column df c = false -> df_getitem df c = Raise (ColumnNotFoundError c).
Proof.
  unfold has_column, columns.
  induction df as [|[n cells] df IH]; [reflexivity|].
  cbn [map fst existsb df_getitem]. rewrite String.eqb_sym.
  destruct (String.eqb n c); [discriminate|]. exact IH.
Qed.

Lemma df_getitem_present (df : DataFrame A) c :
  has_column df c = true -> exists cells, df_getitem df c = Ok cells.
Proof.
  unfold has_column, columns.
  induction df as [|[n cells] df IH]; [discriminate|].
  cbn [map fst existsb df_getitem]. rewrite String.eqb_sym.
  destruct (String.eqb n c); [eauto | exact IH].
Qed.

(** X7.  [plot_trajectory] does not guard its input.  On a table with no
    rows the first marker access raises [IndexError]; on a table that lacks
    one of the columns [x], [y], [z] the access to the first missing one of
    them, in this order, raises [ColumnNotFoundError] for that column.
    Either way nothing is saved: the world is as it was. *)
Theorem plot_trajectory_rejects (df : DataFrame A) (p : Path) (w : world A) :
  (forall xs ys zs,
      df_getitem df "x" = Ok xs ->
      df_getitem df "y" = Ok ys ->
      df_getitem df "z" = Ok zs ->
      xs = [] \/ ys = [] \/ zs = [] ->
      plot_trajectory E df p w = (Raise IndexError, w)) /\
  (has_column df "x" = false ->
   plot_trajectory E df p w = (Raise (ColumnNotFoundError "x"), w)) /\
  (has_column df "x" = true -> has_column df "y" = false ->
   plot_trajectory E df p w = (Raise (ColumnNotFoundError "y"), w)) /\
  (has_column df "x" = true -> has_column df "y" = true ->
   has_column df "z" = false ->
   plot_trajectory E df p w = (Raise (ColumnNotFoundError "z"), w)).
Proof.
  split; [|split; [|split]].
  - intros xs ys zs Hx Hy Hz Hempty.
    unfold plot_trajectory. unfold_monad. rewrite Hx, Hy, Hz.
    destruct xs as [|x0 xs]; [by rewrite np_getitem_empty|].
    rewrite (np_getitem_first (x0 :: xs) x0 eq_refl).
    destruct ys as [|y0 ys]; [by rewrite np_getitem_empty|].
    rewrite (np_getitem_first (y0 :: ys) y0 eq_refl).
    destruct zs as [|z0 zs]; [by rewrite np_getitem_empty|].
    destruct Hempty as [|[|]]; discriminate.
  - intros Hx. unfold plot_trajectory. unfold_monad.
    by rewrite (df_getitem_missing df "x" Hx).
  - intros Hx Hy. unfold plot_trajectory. unfold_monad.
    destruct (df_getitem_present df "x" Hx) as [xs ->].
    by rewrite (df_getitem_missing df "y" Hy).
  - intros Hx Hy Hz. unfold plot_trajectory. unfold_monad.
    destruct (df_getitem_present df "x" Hx) as [xs ->].
    destruct (df_getitem_present df "y" Hy) as [ys ->].
    by rewrite (df_getitem_missing df "z" Hz).
Qed.

End PlotTrajectoryMore.

(** ** The stages of the orchestrator *)

Section MainMore.

Context {A : Type} `{Numeric A} (E : env A).

(** X10.  A failed simulation ends the run: when the child exits with a
    non-zero status, [main] raises [CalledProcessError] with that status.
    The log file keeps what the child wrote (beside the files the child
    left behind); the clock was read once; no record of a finished
    simulation is logged, the output table is not read, and no figure is
    saved. *)
Theorem main_child_failure (args : Args) (w w1 : world A) index simulation c :
  load_index E w = (Ok index, w1) ->
  get_simulation index (arg_simulation_id args) = Some simulation ->
  let log_path := path_str (fst (run_artifacts args (clock E (ticks w)))) in
  let argv := [arg_fpm_binary_path args; "run"; "--target"; entrypoint simulation] in
  writable E log_path = true ->
  exec E argv = Some c ->
  returncode c <> 0%Z ->
  main E args w
  = (Raise (CalledProcessError (returncode c) argv),
     mkWorld (files_after_run log_path c (fs w))
       (handles w) (S (ticks w))
       (trace w ++ [ EvOpen "index.json" "r"; EvClose "index.json";
                     EvLog INFO "Running simulation."
                       [("simulation_id", LStr (arg_simulation_id args))];
                     EvOpen log_path "w"; EvExec argv; EvClose log_path ])).
Proof.
  intros Hload Hget log_path argv Hw Hx Hrc.
  rewrite (main_resolved E args w w1 index simulation Hload Hget).
  erewrite mbind_raise.
  2: { rewrite (run_simulation_started E simulation _ _ _ c Hw Hx).
       apply Z.eqb_neq in Hrc. rewrite Hrc. reflexivity. }
  unfold after_run, before_run. cbn [fs handles ticks trace].
  by rewrite <- app_assoc.
Qed.

(** X11.  A whole run.  When the descriptor is found, the log file opens,
    the child exits with status 0, the file at the descriptor's
    [output_path] (as the files are after the child ran: what the child
    left behind, and its output in the log file) parses to at least three
    columns of which the first three are not empty, and the plot can be
    written, [main] reads the clock twice and logs the finished simulation
    with its duration and log file name.  When the six axis limits are
    finite it then returns normally, with the child's output in the log
    file and the rendered figure of the first three columns in the plot
    file, and its events are, in order: the index read, the record of the
    start, the log file opened, the child run, the log file closed, the
    record of the finished simulation, the figure saved, the record of the
    saved plot.  When a limit is NaN or infinite it raises [ValueError]
    after the record of the finished simulation, and no figure is saved. *)
Theorem main_success
    (args : Args) (w w1 : world A) index simulation c bytes c1 c2 c3 rest :
  load_index E w = (Ok index, w1) ->
  get_simulation index (arg_simulation_id args) = Some simulation ->
  let start_ts := clock E (ticks w) in
  let log_file_path := fst (run_artifacts args start_ts) in
  let plot_path := snd (run_artifacts args start_ts) in
  let argv := [arg_fpm_binary_path args; "run"; "--target"; entrypoint simulation] in
  let sid := ("simulation_id", LStr (arg_simulation_id args)) in
  let files := files_after_run (path_str log_file_path) c (fs w) in
  let finished :=
    [ EvOpen "index.json" "r"; EvClose "index.json";
      EvLog INFO "Running simulation." [sid];
      EvOpen (path_str log_file_path) "w"; EvExec argv;
      EvClose (path_str log_file_path);
      EvLog INFO "Simulation finished."
        [ sid;
          ("duration_seconds",
           LNum (py_round2 (clock E (S (ticks w)) - start_ts)));
          ("log_file", LStr (path_name log_file_path)) ] ] in
  writable E (path_str log_file_path) = true ->
  exec E argv = Some c ->
  returncode c = 0%Z ->
  files !! output_path simulation = Some bytes ->
  csv_parse E bytes = Some (c1 :: c2 :: c3 :: rest) ->
  c1 <> [] -> c2 <> [] -> c3 <> [] ->
  writable E (path_str plot_path) = true ->
  exists first final max_range mid_x mid_y mid_z,
    (head c1 = Some (fst (fst first)) /\ head c2 = Some (snd (fst first)) /\
     head c3 = Some (snd first)) /\
    (last c1 = Some (fst (fst final)) /\ last c2 = Some (snd (fst final)) /\
     last c3 = Some (snd final)) /\
    axis_scaling c1 c2 c3 = Ok (max_range, mid_x, mid_y, mid_z) /\
    let fig := trajectory_figure c1 c2 c3 first final
                 max_range mid_x mid_y mid_z in
    main E args w
    = if limits_finite max_range mid_x mid_y mid_z
      then (Ok tt,
            mkWorld (<[path_str plot_path := render E fig]> files)
              (handles w) (S (S (ticks w)))
              (trace w ++ finished ++
               [ EvSaveFig (path_str plot_path) fig;
                 EvLog INFO "Plot saved."
                   [ sid; ("path", LStr (path_name plot_path)) ] ]))
      else (Raise limits_error,
            mkWorld files (handles w) (S (S (ticks w))) (trace w ++ finished)).
Proof.
  intros Hload Hget start_ts log_file_path plot_path argv sid files finished
         Hw Hx Hrc Hfile Hparse N1 N2 N3 Hwp.
  subst start_ts log_file_path plot_path argv sid files finished.
  rewrite (main_until_load E args w w1 index simulation c Hload Hget Hw Hx Hrc).
  erewrite mbind_ok.
  2: { erewrite load_output_data_parsed by (cbn [fs]; eassumption).
       rewrite df_rename_three. reflexivity. }
  destruct (output_type simulation).
  destruct (proj2 (last_is_Some c1) N1) as [x1 Hx1].
  destruct (proj2 (last_is_Some c2) N2) as [y1 Hy1].
  destruct (proj2 (last_is_Some c3) N3) as [z1 Hz1].
  destruct (axis_scaling_nonempty c1 c2 c3 N1 N2 N3)
    as [[[[max_range mid_x] mid_y] mid_z] Hs].
  destruct c1 as [|x0 xs'], c2 as [|y0 ys'], c3 as [|z0 zs']; try congruence.
  exists (x0, y0, z0), (x1, y1, z1), max_range, mid_x, mid_y, mid_z.
  split; [done|]. split; [done|]. split; [exact Hs|]. cbv zeta.
  pose proof (fun w0 =>
                plot_trajectory_scaled E
                  (("x", x0 :: xs') :: ("y", y0 :: ys')
                   :: ("z", z0 :: zs') :: name_columns 3 rest)
                  (snd (run_artifacts args (clock E (ticks w)))) w0
                  (x0 :: xs') (y0 :: ys') (z0 :: zs')
                  x0 y0 z0 x1 y1 z1 max_range mid_x mid_y mid_z
                  eq_refl eq_refl eq_refl
                  (np_getitem_first (x0 :: xs') x0 eq_refl)
                  (np_getitem_first (y0 :: ys') y0 eq_refl)
                  (np_getitem_first (z0 :: zs') z0 eq_refl)
                  (np_getitem_last _ _ Hx1) (np_getitem_last _ _ Hy1)
                  (np_getitem_last _ _ Hz1) Hs) as Hplot.
  destruct (limits_finite max_range mid_x mid_y mid_z).
  - erewrite mbind_ok.
    2: { rewrite Hplot. unfold savefig. rewrite Hwp. reflexivity. }
    unfold log_call, emit. cbn [fs handles ticks trace].
    rewrite <- !app_assoc. reflexivity.
  - erewrite mbind_raise; [reflexivity|]. by rewrite Hplot.
Qed.

(** X12.  The table [main] plots is the file at the descriptor's
    [output_path], read after the child ran (with the files the child left
    behind, and the child's output in the log file), not the captured log.
    When the child succeeded and that file does not exist, does not parse,
    or has fewer than three columns, [main] raises after it logged the
    finished simulation; the log file stays, and no figure is saved. *)
Theorem main_load_failure (args : Args) (w w1 : world A) index simulation c :
  load_index E w = (Ok index, w1) ->
  get_simulation index (arg_simulation_id args) = Some simulation ->
  let start_ts := clock E (ticks w) in
  let log_file_path := fst (run_artifacts args start_ts) in
  let argv := [arg_fpm_binary_path args; "run"; "--target"; entrypoint simulation] in
  let sid := ("simulation_id", LStr (arg_simulation_id args)) in
  let files := files_after_run (path_str log_file_path) c (fs w) in
  let after :=
    mkWorld files (handles w) (S (S (ticks w)))
      (trace w ++
       [ EvOpen "index.json" "r"; EvClose "index.json";
         EvLog INFO "Running simulation." [sid];
         EvOpen (path_str log_file_path) "w"; EvExec argv;
         EvClose (path_str log_file_path);
         EvLog INFO "Simulation finished."
           [ sid;
             ("duration_seconds",
              LNum (py_round2 (clock E (S (ticks w)) - start_ts)));
             ("log_file", LStr (path_name log_file_path)) ] ]) in
  writable E (path_str log_file_path) = true ->
  exec E argv = Some c ->
  returncode c = 0%Z ->
  (files !! output_path simulation = None ->
   main E args w = (Raise (FileNotFoundError (output_path simulation)), after)) /\
  (forall bytes,
      files !! output_path simulation = Some bytes ->
      csv_parse E bytes = None ->
      main E args w = (Raise CsvParseError, after)) /\
  (forall bytes cols,
      files !! output_path simulation = Some bytes ->
      csv_parse E bytes = Some cols ->
      (length cols < 3)%nat ->
      main E args w
      = (Raise (ColumnNotFoundError (column_name (S (length cols)))), after)).
Proof.
  intros Hload Hget start_ts log_file_path argv sid files after Hw Hx Hrc.
  subst start_ts log_file_path argv sid files after.
  rewrite (main_until_load E args w w1 index simulation c Hload Hget Hw Hx Hrc).
  split; [|split].
  - intros Hnone. erewrite mbind_raise; [reflexivity|].
    unfold load_output_data, read_csv. unfold_monad. cbn [fs].
    by rewrite Hnone.
  - intros bytes Hsome Hparse. erewrite mbind_raise; [reflexivity|].
    unfold load_output_data, read_csv. unfold_monad. cbn [fs].
    by rewrite Hsome, Hparse.
  - intros bytes cols Hsome Hparse Hlen. erewrite mbind_raise; [reflexivity|].
    erewrite load_output_data_parsed by (cbn [fs]; eassumption).
    by rewrite df_rename_too_few.
Qed.

(** X13.  An index that cannot be read ends the run before anything else:
    when [index.json] is missing [main] raises [FileNotFoundError] and the
    world is as it was; when it does not decode [main] raises the decoding
    error and the only events are the opening and closing of the index
    file.  In both cases no record is logged, not even at error
    severity. *)
Theorem main_index_failure (args : Args) (w : world A) :
  (fs w !! "index.json" = None ->
   main E args w = (Raise (FileNotFoundError "index.json"), w)) /\
  (forall bytes,
      fs w !! "index.json" = Some bytes ->
      json_loads E bytes = None ->
      main E args w = (Raise JSONDecodeError, after_index_read w)).
Proof.
  split.
  - intros Hf. unfold main. cbv zeta. erewrite mbind_raise; [reflexivity|].
    unfold load_index. unfold_monad. by rewrite (read_index_file_missing E w Hf).
  - intros bytes Hf Hj. unfold main. cbv zeta.
    erewrite mbind_raise; [reflexivity|].
    unfold load_index. unfold_monad.
    by rewrite (read_index_file_present E w bytes Hf), Hj.
Qed.

End MainMore.

(** ** File objects and artifact paths *)

Section Resources.

Context {A : Type} `{Numeric A} (E : env A).

Lemma keeps_handles_bind {X Y} (m : M A X) (k : X -> M A Y) :
  keeps_handles m -> (forall x, keeps_handles (k x)) -> keeps_handles (m ≫= k).
Proof.
  intros Hm Hk w r w'. unfold_monad.
  destruct (m w) as [[x|e] w1] eqn:Hmw.
  - intros Hkw. rewrite (Hk x _ _ _ Hkw). by eapply Hm.
  - intros [= _ <-]. by eapply Hm.
Qed.

Lemma keeps_handles_raise {X} e : keeps_handles (raise (A:=A) (X:=X) e).
Proof. by intros w r w' [= _ <-]. Qed.

Lemma keeps_handles_log bound level msg fields :
  keeps_handles (log_call (A:=A) bound level msg fields).
Proof. by intros w r w' [= _ <-]. Qed.

Lemma keeps_handles_now : keeps_handles (now E).
Proof. by intros w r w' [= _ <-]. Qed.

Lemma keeps_handles_load_index : keeps_handles (load_index E).
Proof.
  intros w r w' Hl. by destruct (load_index_world E w w' r Hl) as [-> | ->].
Qed.

Lemma keeps_handles_load_output_data simulation :
  keeps_handles (load_output_data E simulation).
Proof. by intros w r w' ->%load_output_data_world. Qed.

Lemma keeps_handles_run_simulation simulation binary_path (p : Path) :
  keeps_handles (run_simulation E simulation binary_path p).
Proof.
  intros w r w'.
  destruct (writable E (path_str p)) eqn:Hw.
  - destruct (exec E [binary_path; "run"; "--target"; entrypoint simulation])
      as [c|] eqn:Hx.
    + rewrite (run_simulation_started E simulation binary_path p w c Hw Hx).
      by intros [= _ <-].
    + rewrite (run_simulation_not_started E simulation binary_path p w Hw Hx).
      by intros [= _ <-].
  - rewrite (run_simulation_unwritable E simulation binary_path p w Hw).
    by intros [= _ <-].
Qed.

Lemma keeps_handles_plot_trajectory (df : DataFrame A) (p : Path) :
  keeps_handles (plot_trajectory E df p).
Proof.
  intros w r w'.
  destruct (plot_trajectory_world E df p w) as [[fig ->] | [e ->]].
  - unfold savefig. destruct (writable E (path_str p)); by intros [= _ <-].
  - by intros [= _ <-].
Qed.

(** X14.  Whatever the run does and however it ends, by its end or by an
    exception of any stage, the file objects that are open afterwards are
    those that were open before: [main] closes every file it opens. *)
Theorem main_closes_its_files (args : Args) (w : world A) :
  handles (snd (main E args w)) = handles w.
Proof.
  assert (keeps_handles (main E args)) as Hmain.
  { unfold main. cbv zeta.
    apply keeps_handles_bind; [apply keeps_handles_load_index | intros index].
    destruct (get_simulation index (arg_simulation_id args)) as [simulation|].
    - apply keeps_handles_bind; [apply keeps_handles_now | intros start_ts].
      destruct (run_artifacts args start_ts) as [l p].
      apply keeps_handles_bind; [apply keeps_handles_log | intros _].
      apply keeps_handles_bind; [apply keeps_handles_run_simulation | intros _].
      apply keeps_handles_bind; [apply keeps_handles_now | intros end_ts].
      apply keeps_handles_bind; [apply keeps_handles_log | intros _].
      apply keeps_handles_bind;
        [apply keeps_handles_load_output_data | intros df].
      destruct (output_type simulation).
      apply keeps_handles_bind; [apply keeps_handles_plot_trajectory | intros _].
      apply keeps_handles_log.
    - apply keeps_handles_bind; [apply keeps_handles_log | intros _].
      apply keeps_handles_raise. }
  destruct (main E args w) as [r w'] eqn:Hrun. cbn [snd]. by eapply Hmain.
Qed.

End Resources.

(** X15.  The two artifacts of a run never share a path: the text and the
    name of the log file path differ from those of the plot path, so the
    plot is never written over the log. *)
Theorem run_artifacts_distinct (args : Args) (start_ts : Q) :
  path_str (fst (run_artifacts args start_ts))
  <> path_str (snd (run_artifacts args start_ts)) /\
  path_name (fst (run_artifacts args start_ts))
  <> path_name (snd (run_artifacts args start_ts)).
Proof.
  destruct (run_artifacts_joined args start_ts) as (base & Hlog & Hplot).
  destruct (path_with_extension base) as (stem & text & Hext).
  destruct (Hext _ ".log" eq_refl Hlog) as [-> ->].
  destruct (Hext _ ".png" eq_refl Hplot) as [-> ->].
  split; intros Heq; apply (inj (String.app _)) in Heq; discriminate.
Qed.

Section LoadOutputMore.

Context {A : Type} `{Numeric A} (E : env A).

(** X16.  [load_output_data] only reads: whatever it returns or raises, the
    world is as it was.  It raises [FileNotFoundError] when there is no file
    at the descriptor's [output_path], and the parse error when the file
    does not parse. *)
Theorem load_output_data_reads_only (simulation : Simulation) (w : world A) :
  snd (load_output_data E simulation w) = w /\
  (fs w !! output_path simulation = None ->
   fst (load_output_data E simulation w)
   = Raise (FileNotFoundError (output_path simulation))) /\
  (forall bytes,
      fs w !! output_path simulation = Some bytes ->
      csv_parse E bytes = None ->
      fst (load_output_data E simulation w) = Raise CsvParseError).
Proof.
  split; [|split].
  - destruct (load_output_data E simulation w) as [r w'] eqn:Hl.
    by apply load_output_data_world in Hl.
  - intros Hf. unfold load_output_data, read_csv. unfold_monad. by rewrite Hf.
  - intros bytes Hf Hp. unfold load_output_data, read_csv. unfold_monad.
    by rewrite Hf, Hp.
Qed.

End LoadOutputMore.

(** ** The further properties on the sample run *)

Lemma load_index_sound_witness :
  exists bytes kwargs docs,
    fs sample_world !! "index.json" = Some bytes /\
    json_loads (sample_env sample_columns None) bytes = Some (PDict kwargs) /\
    dict_get "simulations" kwargs = Some (PList docs) /\
    Forall2 (fun d s => exists items,
                 d = PDict items /\ read_from (fun _ => None) items s /\
                 constraints_ok s)
      docs [sample_simulation].
Proof.
  exact (load_index_sound (sample_env sample_columns None) sample_world
           (after_index_read sample_world)
           (mkSimulationIndex [sample_simulation]) eq_refl).
Defined.

Lemma load_index_missing_field_witness :
  load_index
    (sample_env_decoding
       (Some (PDict [("simulations",
                      PList [PDict [("simulation_id", PStr "orbit1");
                                    ("name", PStr "Orbit");
                                    ("entrypoint", PStr "orbit");
                                    ("output_type", PStr "trajectory");
                                    ("output_path", PStr "orbit.csv");
                                    ("dimensions", PInt 3);
                                    ("description", PStr "")]])])))
    sample_world
  = (Raise ValidationError, after_index_read sample_world).
Proof.
  eapply (load_index_missing_field _ sample_world []); try reflexivity.
  left. exists "id". split; [by left | reflexivity].
Defined.

Lemma load_index_wrong_shape_witness :
  load_index (sample_env_decoding (Some (PList []))) sample_world
  = (Raise TypeError, after_index_read sample_world).
Proof.
  apply (proj1 (load_index_wrong_shape
                  (sample_env_decoding (Some (PList []))) sample_world []
                  eq_refl) (PList []) eq_refl).
  discriminate.
Defined.

Lemma run_simulation_without_child_witness :
  fst (run_simulation (sample_env sample_columns None) sample_simulation "fpm"
         (Path_of "orbit.csv") sample_world)
  = Raise (FileNotFoundError "fpm") /\
  fs (snd (run_simulation (sample_env sample_columns None) sample_simulation
             "fpm" (Path_of "orbit.csv") sample_world)) !! "orbit.csv"
  = Some [].
Proof.
  destruct (proj2 (run_simulation_without_child
                     (sample_env sample_columns None) sample_simulation "fpm"
                     (Path_of "orbit.csv") sample_world) eq_refl eq_refl)
    as (Hraise & Hfile & _).
  split; [exact Hraise | exact Hfile].
Defined.

Lemma main_child_failure_witness :
  fst (main (sample_env sample_columns (Some failing_child))
         (mkArgs "orbit1" "fpm" "output") sample_world)
  = Raise (CalledProcessError 2 ["fpm"; "run"; "--target"; "orbit"]).
Proof.
  rewrite (main_child_failure (sample_env sample_columns (Some failing_child))
             (mkArgs "orbit1" "fpm" "output") sample_world
             (after_index_read sample_world)
             (mkSimulationIndex [sample_simulation]) sample_simulation
             failing_child eq_refl eq_refl eq_refl eq_refl
             ltac:(discriminate)).
  reflexivity.
Defined.

Lemma main_index_failure_witness :
  main (sample_env sample_columns None) (mkArgs "orbit1" "fpm" "output")
    empty_world
  = (Raise (FileNotFoundError "index.json"), empty_world).
Proof.
  exact (proj1 (main_index_failure (sample_env sample_columns None)
                  (mkArgs "orbit1" "fpm" "output") empty_world) eq_refl).
Defined.

Lemma load_output_data_reads_only_witness :
  fst (load_output_data (sample_env sample_columns None) sample_simulation
         empty_world)
  = Raise (FileNotFoundError "orbit.csv").
Proof.
  exact (proj1 (proj2 (load_output_data_reads_only
                         (sample_env sample_columns None) sample_simulation
                         empty_world)) eq_refl).
Defined.

Lemma plot_trajectory_rejects_witness :
  plot_trajectory (sample_env sample_columns None)
    [("x", [NInt 0]); ("z", [NInt 0])] (Path_of "plot.png") sample_world
  = (Raise (ColumnNotFoundError "y"), sample_world).
Proof.
  apply (proj1 (proj2 (proj2 (plot_trajectory_rejects
                                (sample_env sample_columns None)
                                [("x", [NInt 0]); ("z", [NInt 0])]
                                (Path_of "plot.png") sample_world)))
           eq_refl eq_refl).
Defined.

Lemma main_success_witness :
  fst (main (sample_env sample_columns (Some writing_child))
         (mkArgs "orbit1" "fpm" "output") index_only_world)
  = Ok tt.
Proof.
  destruct (main_success (sample_env sample_columns (Some writing_child))
              (mkArgs "orbit1" "fpm" "output") index_only_world
              (after_index_read index_only_world)
              (mkSimulationIndex [sample_simulation]) sample_simulation
              writing_child (list_byte_of_string "0,0,0")
              [NInt 0; NInt 1; NInt 2] [NInt 0; NInt 1; NInt 0]
              [NInt 0; NInt 1; NInt 2] []
              eq_refl eq_refl eq_refl eq_refl eq_refl eq_refl eq_refl
              ltac:(discriminate) ltac:(discriminate) ltac:(discriminate)
              eq_refl)
    as (first & final & max_range & mid_x & mid_y & mid_z & _ & _ & Hs & Hmain).
  vm_compute in Hs. injection Hs as Hr Hx Hy Hz.
  subst max_range mid_x mid_y mid_z.
  cbv zeta in Hmain. rewrite Hmain. reflexivity.
Defined.

Lemma main_load_failure_witness :
  fst (main (sample_env [[NInt 0; NInt 1]; [NInt 0; NInt 1]]
               (Some succeeding_child))
         (mkArgs "orbit1" "fpm" "output") sample_world)
  = Raise (ColumnNotFoundError "column_3").
Proof.
  rewrite (proj2 (proj2 (main_load_failure
                           (sample_env [[NInt 0; NInt 1]; [NInt 0; NInt 1]]
                              (Some succeeding_child))
                           (mkArgs "orbit1" "fpm" "output") sample_world
                           (after_index_read sample_world)
                           (mkSimulationIndex [sample_simulation])
                           sample_simulation succeeding_child
                           eq_refl eq_refl eq_refl eq_refl eq_refl))
             [] [[NInt 0; NInt 1]; [NInt 0; NInt 1]] eq_refl eq_refl
             ltac:(simpl; lia)).
  reflexivity.
Defined.
